(** * Bike Taxi API: ride lifecycle and driver directory

    A shallow embedding of [main.py] and [schemas.py].  The request handlers
    are pure functions over the database handle [db] (absent when the store
    is not configured), the request body and the two effects a handler
    consumes: the clock ([datetime.utcnow()]) and, for a handler that may
    insert, the identifier generated for the new document. *)

From Stdlib Require Import List String Ascii NArith ZArith Lia Bool PrimFloat.
From Stdlib Require Import Sorting.Sorted Sorting.Permutation.
Import ListNotations.
Local Open Scope string_scope.
Local Open Scope list_scope.

(** ** bson.ObjectId *)

(** A Python [bytes] value: a sequence of 8-bit characters. *)
Definition bytes := string.

(** Value of a hexadecimal digit, upper or lower case. *)
Definition hex_digit (c : ascii) : option N :=
  let n := N_of_ascii c in
  if (48 <=? n)%N && (n <=? 57)%N then Some (n - 48)%N
  else if (97 <=? n)%N && (n <=? 102)%N then Some (n - 87)%N
  else if (65 <=? n)%N && (n <=? 70)%N then Some (n - 55)%N
  else None.

(** ASCII white space, which [bytes.fromhex] skips between two bytes. *)
Definition is_space (c : ascii) : bool :=
  let n := N_of_ascii c in
  (n =? 32)%N || ((9 <=? n)%N && (n <=? 13)%N).

(** [bytes.fromhex]: pairs of hexadecimal digits, white space allowed between
    pairs; [None] stands for the [ValueError]. *)
Fixpoint fromhex (s : string) : option bytes :=
  match s with
  | EmptyString => Some EmptyString
  | String c s1 =>
      if is_space c then fromhex s1
      else
        match hex_digit c, s1 with
        | Some top, String c' s2 =>
            match hex_digit c' with
            | Some bot =>
                match fromhex s2 with
                | Some b => Some (String (ascii_of_N (16 * top + bot)) b)
                | None => None
                end
            | None => None
            end
        | _, _ => None
        end
  end.

Record ObjectId := mkObjectId { binary : bytes }.

(** [ObjectId(oid)] for a [str] argument: exactly 24 characters that
    [bytes.fromhex] accepts; [None] stands for [InvalidId]. *)
Definition ObjectId_from_str (oid : string) : option ObjectId :=
  if Nat.eqb (String.length oid) 24 then
    match fromhex oid with
    | Some b => Some (mkObjectId b)
    | None => None
    end
  else None.

Definition hex_char (n : N) : ascii :=
  if (n <? 10)%N then ascii_of_N (48 + n) else ascii_of_N (87 + n).

Fixpoint hexlify (b : bytes) : string :=
  match b with
  | EmptyString => EmptyString
  | String c b' =>
      let n := N_of_ascii c in
      String (hex_char (n / 16)) (String (hex_char (n mod 16)) (hexlify b'))
  end.

(** [str(oid)]: the lower-case hexadecimal form. *)
Definition ObjectId_str (oid : ObjectId) : string := hexlify (binary oid).

Definition ObjectId_eqb (a b : ObjectId) : bool :=
  String.eqb (binary a) (binary b).

(** ** schemas.py *)

Inductive Role := rider | driver.

Definition Role_eqb (a b : Role) : bool :=
  match a, b with
  | rider, rider | driver, driver => true
  | _, _ => false
  end.

Record User := mkUser {
  name : string;
  role : Role;
  phone : option string;
  is_active : bool
}.

Record DriverStatus := mkDriverStatus {
  user_id : string;
  is_available : bool;
  lat : option float;
  lng : option float
}.

(** In the store the status of a ride is a plain string: the status handler
    writes the string of the request body after its own membership test. *)
Record Ride := mkRide {
  rider_id : string;
  pickup : string;
  dropoff : string;
  status : string;
  driver_id : option string;
  fare_estimate : option float
}.

(** ** Documents and collections *)

Definition datetime := Z.

(** What a stored document holds next to its key: the fields of the schema
    and the two time stamps. *)
Record Stored (A : Type) := mkStored {
  fields : A;
  created_at : datetime;
  updated_at : datetime
}.
Arguments mkStored {A}.
Arguments fields {A}.
Arguments created_at {A}.
Arguments updated_at {A}.

(** A document as the store returns it, keyed by ["_id"]. *)
Record Document (A : Type) := mkDocument {
  _id : ObjectId;
  rest : Stored A
}.
Arguments mkDocument {A}.
Arguments _id {A}.
Arguments rest {A}.

(** A collection in natural (insertion) order. *)
Definition Collection (A : Type) := list (Document A).

Record Database := mkDatabase {
  user : Collection User;
  ride : Collection Ride;
  driverstatus : Collection DriverStatus
}.

Definition with_user (st : Database) (c : Collection User) : Database :=
  mkDatabase c (ride st) (driverstatus st).
Definition with_ride (st : Database) (c : Collection Ride) : Database :=
  mkDatabase (user st) c (driverstatus st).
Definition with_driverstatus (st : Database) (c : Collection DriverStatus)
  : Database :=
  mkDatabase (user st) (ride st) c.

(** ** The pymongo operations the handlers call *)

Section Pymongo.
Context {A : Type}.

(** [collection.find(filter)]: the matching documents in natural order. *)
Definition find (q : Document A -> bool) (c : Collection A)
  : list (Document A) :=
  filter q c.

(** [collection.find_one(filter)]: the first matching document. *)
Definition find_one (q : Document A -> bool) (c : Collection A)
  : option (Document A) :=
  List.find q c.

(** [collection.update_one(filter, {"$set": ...})]: the first matching
    document has its non-key part rewritten; the first component is
    [matched_count]. *)
Fixpoint update_one (q : Document A -> bool) (set : Stored A -> Stored A)
    (c : Collection A) : nat * Collection A :=
  match c with
  | [] => (0, [])
  | d :: c' =>
      if q d then (1, mkDocument (_id d) (set (rest d)) :: c')
      else let (n, c'') := update_one q set c' in (n, d :: c'')
  end.

(** [collection.insert_one(doc)]. *)
Definition insert_one (c : Collection A) (d : Document A) : Collection A :=
  c ++ [d].

Fixpoint insert_desc (d : Document A) (l : list (Document A))
  : list (Document A) :=
  match l with
  | [] => [d]
  | x :: l' =>
      if (created_at (rest x) <=? created_at (rest d))%Z then d :: l
      else x :: insert_desc d l'
  end.

(** [cursor.sort("created_at", -1)]: descending by creation time.  The
    store leaves the order of equal keys open; this sort keeps them in
    natural order. *)
Definition sort_created_at_desc (l : list (Document A))
  : list (Document A) :=
  fold_right insert_desc [] l.

(** [cursor.limit(n)]. *)
Definition limit (n : nat) (l : list (Document A)) : list (Document A) :=
  firstn n l.
End Pymongo.

(** Modelled from the spec: [create_document] of [database.py], which is not
    among the sources.  It "assigns a new unique id, stores the record under
    (kind, id), returns the id" and "every successful create/update sets
    timestamp fields".  The identifier is the one the generator issues for
    this call, [oid]; that it is new is the generator's contract, stated as
    [fresh] where a theorem needs it. *)
Definition create_document {A : Type} (c : Collection A) (data : A)
    (oid : ObjectId) (now : datetime) : string * Collection A :=
  (ObjectId_str oid, insert_one c (mkDocument oid (mkStored data now now))).

(** ** main.py: responses and request bodies *)

Record HTTPException := mkHTTPException {
  status_code : Z;
  detail : string
}.

(** The four failure kinds, as the handlers raise them. *)
Definition StoreUnavailable := mkHTTPException 500 "Database not configured".
Definition InvalidId := mkHTTPException 400 "Invalid ride id".
Definition InvalidStatus := mkHTTPException 400 "Invalid status".
Definition NotFound := mkHTTPException 404 "Ride not found".

(** A handler returns a value or raises. *)
Definition Response (A : Type) : Type := (A + HTTPException)%type.

Module IdResponse.
Record t := mk { id : string }.
End IdResponse.

(** The body [{"ok": True}]. *)
Record OkResponse := mkOk { ok : bool }.

Module RideRequest.
Record t := mk { rider_id : string; pickup : string; dropoff : string }.
End RideRequest.

Module AssignDriver.
Record t := mk { driver_id : string }.
End AssignDriver.

Module UpdateRideStatus.
Record t := mk { status : string }.
End UpdateRideStatus.

Module UpdateDriverStatus.
Record t := mk {
  user_id : string;
  is_available : bool;
  lat : option float;
  lng : option float
}.
End UpdateDriverStatus.

(** A document after [to_str_id]: the key ["_id"] replaced by the string
    ["id"], everything else as stored. *)
Record StrDocument (A : Type) := mkStrDocument {
  id : string;
  items : Stored A
}.
Arguments mkStrDocument {A}.
Arguments id {A}.
Arguments items {A}.

(** The dictionary branch of [to_str_id]; every document of the store has an
    [ObjectId] under ["_id"]. *)
Definition to_str_id_doc {A : Type} (doc : Document A) : StrDocument A :=
  mkStrDocument (ObjectId_str (_id doc)) (rest doc).

Definition to_str_id {A : Type} (doc : option (Document A))
  : option (StrDocument A) :=
  match doc with
  | None => None
  | Some d => Some (to_str_id_doc d)
  end.

(** An entry of the driver listing: the user with ["status"] added, the
    status document without its ["_id"] or null. *)
Record DriverProfile := mkDriverProfile {
  profile : StrDocument User;
  profile_status : option (Stored DriverStatus)
}.

(** ** main.py: handlers *)

Definition create_user (db : option Database) (u : User) (oid : ObjectId)
    (now : datetime) : Response IdResponse.t * option Database :=
  match db with
  | None => (inr StoreUnavailable, db)
  | Some st =>
      let (user_id, c) := create_document (user st) u oid now in
      (inl (IdResponse.mk user_id), Some (with_user st c))
  end.

Definition list_available_drivers (db : option Database)
  : Response (list DriverProfile) :=
  match db with
  | None => inr StoreUnavailable
  | Some st =>
      let drivers :=
        find (fun d => Role_eqb (role (fields (rest d))) driver
                       && Bool.eqb (is_active (fields (rest d))) true)
             (user st) in
      inl (map (fun d =>
                  let profile := to_str_id_doc d in
                  let status :=
                    find_one (fun s => String.eqb (user_id (fields (rest s)))
                                                  (id profile))
                             (driverstatus st) in
                  mkDriverProfile profile (option_map rest status))
               drivers)
  end.

Definition request_ride (db : option Database) (req : RideRequest.t)
    (oid : ObjectId) (now : datetime)
  : Response IdResponse.t * option Database :=
  match db with
  | None => (inr StoreUnavailable, db)
  | Some st =>
      let ride_ :=
        mkRide (RideRequest.rider_id req) (RideRequest.pickup req)
               (RideRequest.dropoff req) "requested" None None in
      let (ride_id, c) := create_document (ride st) ride_ oid now in
      (inl (IdResponse.mk ride_id), Some (with_ride st c))
  end.

(** Truth value of a string: empty is false. *)
Definition str_bool (s : string) : bool :=
  match s with
  | EmptyString => false
  | String _ _ => true
  end.

(** The query [filter_q] of [list_rides]: empty, or on ["rider_id"]. *)
Definition filter_q (rider_id_ : option string) (d : Document Ride) : bool :=
  match rider_id_ with
  | Some r =>
      if str_bool r then String.eqb (rider_id (fields (rest d))) r else true
  | None => true
  end.

Definition list_rides (db : option Database) (rider_id_ : option string)
  : Response (list (StrDocument Ride)) :=
  match db with
  | None => inr StoreUnavailable
  | Some st =>
      let rides :=
        limit 20 (sort_created_at_desc (find (filter_q rider_id_) (ride st))) in
      inl (map to_str_id_doc rides)
  end.

(** The ["$set"] of [assign_driver]: ["driver_id"], ["status"] and the time
    stamp. *)
Definition set_assignment (body : AssignDriver.t) (now : datetime)
    (s : Stored Ride) : Stored Ride :=
  mkStored
    (mkRide (rider_id (fields s)) (pickup (fields s)) (dropoff (fields s))
            "accepted" (Some (AssignDriver.driver_id body))
            (fare_estimate (fields s)))
    (created_at s) now.

Definition assign_driver (db : option Database) (ride_id : string)
    (body : AssignDriver.t) (now : datetime)
  : Response OkResponse * option Database :=
  match db with
  | None => (inr StoreUnavailable, db)
  | Some st =>
      match ObjectId_from_str ride_id with
      | None => (inr InvalidId, db)
      | Some oid =>
          let (matched_count, c) :=
            update_one (fun d => ObjectId_eqb (_id d) oid)
                       (set_assignment body now) (ride st) in
          if Nat.eqb matched_count 0 then (inr NotFound, Some (with_ride st c))
          else (inl (mkOk true), Some (with_ride st c))
      end
  end.

(** The list the status handler tests membership in. *)
Definition statuses : list string :=
  ["requested"; "accepted"; "picked_up"; "completed"; "cancelled"].

(** [x in l] on strings. *)
Definition str_in (x : string) (l : list string) : bool :=
  existsb (String.eqb x) l.

(** The ["$set"] of [update_ride_status]: ["status"] and the time stamp. *)
Definition set_ride_status (body : UpdateRideStatus.t) (now : datetime)
    (s : Stored Ride) : Stored Ride :=
  mkStored
    (mkRide (rider_id (fields s)) (pickup (fields s)) (dropoff (fields s))
            (UpdateRideStatus.status body) (driver_id (fields s))
            (fare_estimate (fields s)))
    (created_at s) now.

Definition update_ride_status (db : option Database) (ride_id : string)
    (body : UpdateRideStatus.t) (now : datetime)
  : Response OkResponse * option Database :=
  match db with
  | None => (inr StoreUnavailable, db)
  | Some st =>
      match ObjectId_from_str ride_id with
      | None => (inr InvalidId, db)
      | Some oid =>
          if negb (str_in (UpdateRideStatus.status body) statuses)
          then (inr InvalidStatus, db)
          else
            let (matched_count, c) :=
              update_one (fun d => ObjectId_eqb (_id d) oid)
                         (set_ride_status body now) (ride st) in
            if Nat.eqb matched_count 0
            then (inr NotFound, Some (with_ride st c))
            else (inl (mkOk true), Some (with_ride st c))
      end
  end.

(** The ["$set"] of [update_driver_status]: the body without ["user_id"],
    and the time stamp. *)
Definition set_driver_status (body : UpdateDriverStatus.t) (now : datetime)
    (s : Stored DriverStatus) : Stored DriverStatus :=
  mkStored
    (mkDriverStatus (user_id (fields s))
                    (UpdateDriverStatus.is_available body)
                    (UpdateDriverStatus.lat body)
                    (UpdateDriverStatus.lng body))
    (created_at s) now.

Definition update_driver_status (db : option Database)
    (body : UpdateDriverStatus.t) (oid : ObjectId) (now : datetime)
  : Response OkResponse * option Database :=
  match db with
  | None => (inr StoreUnavailable, db)
  | Some st =>
      let existing :=
        find_one (fun d => String.eqb (user_id (fields (rest d)))
                                      (UpdateDriverStatus.user_id body))
                 (driverstatus st) in
      match existing with
      | Some e =>
          let (_, c) :=
            update_one (fun d => ObjectId_eqb (_id d) (_id e))
                       (set_driver_status body now) (driverstatus st) in
          (inl (mkOk true), Some (with_driverstatus st c))
      | None =>
          let (_, c) :=
            create_document
              (driverstatus st)
              (mkDriverStatus (UpdateDriverStatus.user_id body)
                              (UpdateDriverStatus.is_available body)
                              (UpdateDriverStatus.lat body)
                              (UpdateDriverStatus.lng body))
              oid now in
          (inl (mkOk true), Some (with_driverstatus st c))
      end
  end.

(** ** Sequential executions *)

(** The requests that write to the store. *)
Inductive Request :=
| CreateUser (u : User)
| RequestRide (req : RideRequest.t)
| AssignDriverTo (ride_id : string) (body : AssignDriver.t)
| SetRideStatus (ride_id : string) (body : UpdateRideStatus.t)
| ReportDriverStatus (body : UpdateDriverStatus.t).

(** The store after one request is served; [oid] and [now] are the generated
    identifier and the clock reading the handler may consume. *)
Definition serve (db : option Database) (r : Request) (oid : ObjectId)
    (now : datetime) : option Database :=
  match r with
  | CreateUser u => snd (create_user db u oid now)
  | RequestRide req => snd (request_ride db req oid now)
  | AssignDriverTo ride_id body => snd (assign_driver db ride_id body now)
  | SetRideStatus ride_id body => snd (update_ride_status db ride_id body now)
  | ReportDriverStatus body => snd (update_driver_status db body oid now)
  end.

(** The generator's contract: the identifier it issues is not in the store. *)
Definition fresh (oid : ObjectId) (st : Database) : Prop :=
  ~ In oid (map _id (user st)) /\
  ~ In oid (map _id (ride st)) /\
  ~ In oid (map _id (driverstatus st)).

(** The stores that requests served one after the other produce, starting
    from the empty store. *)
Inductive reachable : Database -> Prop :=
| reachable_empty : reachable (mkDatabase [] [] [])
| reachable_serve st r oid now st' :
    reachable st ->
    fresh oid st ->
    serve (Some st) r oid now = Some st' ->
    reachable st'.

Definition status_user_id (d : Document DriverStatus) : string :=
  user_id (fields (rest d)).

(** The store invariant: keys are unique in each collection, and no two
    driver status documents carry the same [user_id]. *)
Record StoreInv (st : Database) : Prop := mkStoreInv {
  inv_user_ids : NoDup (map _id (user st));
  inv_ride_ids : NoDup (map _id (ride st));
  inv_status_ids : NoDup (map _id (driverstatus st));
  inv_status_users : NoDup (map status_user_id (driverstatus st))
}.

(** Follows the spec's words: "the most recent DriverStatus for that user's
    id", the document with the latest [updated_at] among those whose
    [user_id] is [uid]. *)
Fixpoint most_recent_status (uid : string) (c : Collection DriverStatus)
  : option (Document DriverStatus) :=
  match c with
  | [] => None
  | d :: c' =>
      let later := most_recent_status uid c' in
      if String.eqb (status_user_id d) uid then
        match later with
        | Some b =>
            if (updated_at (rest d) <? updated_at (rest b))%Z then Some b
            else Some d
        | None => Some d
        end
      else later
  end.

(** Whether the path parameter [ride_id] parses to the key [oid]. *)
Definition names_ride (ride_id : string) (oid : ObjectId) : bool :=
  match ObjectId_from_str ride_id with
  | Some o => ObjectId_eqb o oid
  | None => false
  end.

(** The status of the ride stored under [oid], if any. *)
Definition ride_status (st : Database) (oid : ObjectId) : option string :=
  option_map (fun d => status (fields (rest d)))
             (find_one (fun d => ObjectId_eqb (_id d) oid) (ride st)).

Definition terminal (s : string) : bool :=
  String.eqb s "completed" || String.eqb s "cancelled".

(** Newest first. *)
Definition newer_or_same {A : Type} (x y : Document A) : Prop :=
  (created_at (rest y) <= created_at (rest x))%Z.

(** Newest first, on the documents a handler returns. *)
Definition newest_first {A : Type} (x y : StrDocument A) : Prop :=
  (created_at (items y) <= created_at (items x))%Z.

(** The document [e] after the ["$set"] of a report. *)
Definition reported (body : UpdateDriverStatus.t) (now : datetime)
    (e : Document DriverStatus) : Document DriverStatus :=
  mkDocument (_id e) (set_driver_status body now (rest e)).

(** The collection with the document keyed like [e] rewritten in place. *)
Definition report_in_place (body : UpdateDriverStatus.t) (now : datetime)
    (e : Document DriverStatus) (c : Collection DriverStatus)
  : Collection DriverStatus :=
  map (fun d => if ObjectId_eqb (_id d) (_id e) then reported body now d
                else d) c.

(** The document a first report inserts. *)
Definition first_report (body : UpdateDriverStatus.t) (oid : ObjectId)
    (now : datetime) : Document DriverStatus :=
  mkDocument oid
             (mkStored
                (mkDriverStatus (UpdateDriverStatus.user_id body)
                                (UpdateDriverStatus.is_available body)
                                (UpdateDriverStatus.lat body)
                                (UpdateDriverStatus.lng body))
                now now).

(** ** main.py: diagnostics *)

(** What [test_database] reads besides [db]: the [name] of the handle when it
    has one, the answer of [list_collection_names()] (the names, or the text
    of the exception it raises, as the list of its characters, each in its
    own encoding), and the environment of the process. *)
Record Probe := mkProbe {
  handle_name : option string;
  collection_names : (list string + list string)%type;
  getenv : string -> option string
}.

Record TestResponse := mkTestResponse {
  backend : string;
  database : string;
  database_url : option string;
  database_name : option string;
  connection_status : string;
  collections : list string
}.

Definition set_database (r : TestResponse) (v : string) : TestResponse :=
  mkTestResponse (backend r) v (database_url r) (database_name r)
                 (connection_status r) (collections r).
Definition set_database_url (r : TestResponse) (v : string) : TestResponse :=
  mkTestResponse (backend r) (database r) (Some v) (database_name r)
                 (connection_status r) (collections r).
Definition set_database_name (r : TestResponse) (v : string) : TestResponse :=
  mkTestResponse (backend r) (database r) (database_url r) (Some v)
                 (connection_status r) (collections r).
Definition set_connection_status (r : TestResponse) (v : string)
  : TestResponse :=
  mkTestResponse (backend r) (database r) (database_url r) (database_name r)
                 v (collections r).
Definition set_collections (r : TestResponse) (v : list string)
  : TestResponse :=
  mkTestResponse (backend r) (database r) (database_url r) (database_name r)
                 (connection_status r) v.

(** Truth value of what [os.getenv] returns: unset and empty are false. *)
Definition env_bool (v : option string) : bool :=
  match v with
  | Some s => str_bool s
  | None => false
  end.

(** [test_database].  The only call that can raise is
    [list_collection_names()], inside the inner [try]; the outer handler is
    therefore never entered.  The slice [str(e)[:50]] keeps the first 50
    characters of the text. *)
Definition test_database (db : option Database) (p : Probe) : TestResponse :=
  let response :=
    mkTestResponse "✅ Running" "❌ Not Available" None None
                   "Not Connected" [] in
  let response :=
    match db with
    | Some _ =>
        let response := set_database response "✅ Available" in
        let response := set_database_url response "✅ Configured" in
        let response :=
          set_database_name response
            (match handle_name p with
             | Some n => n
             | None => "✅ Connected"
             end) in
        let response := set_connection_status response "Connected" in
        match collection_names p with
        | inl collections_ =>
            let response := set_collections response (firstn 10 collections_) in
            set_database response "✅ Connected & Working"
        | inr e =>
            set_database response
              (String.append "⚠️  Connected but Error: "
                             (String.concat "" (firstn 50 e)))
        end
    | None => set_database response "⚠️  Available but not initialized"
    end in
  let response :=
    set_database_url response
      (if env_bool (getenv p "DATABASE_URL") then "✅ Set"
       else "❌ Not Set") in
  let response :=
    set_database_name response
      (if env_bool (getenv p "DATABASE_NAME") then "✅ Set"
       else "❌ Not Set") in
  response.

(** ** Quantities the handlers never change *)

(** A generated identifier has 12 bytes. *)
Definition generated (oid : ObjectId) : Prop :=
  String.length (binary oid) = 12.

(** The part of a ride document no handler writes after creation. *)
Definition ride_core (d : Document Ride) :=
  (_id d, rider_id (fields (rest d)), pickup (fields (rest d)),
   dropoff (fields (rest d)), fare_estimate (fields (rest d)),
   created_at (rest d)).

(** The part of a status document no handler writes after creation. *)
Definition status_core (d : Document DriverStatus) :=
  (_id d, user_id (fields (rest d)), created_at (rest d)).

(** ** Sample data *)

Definition sample_ride_oid : ObjectId := mkObjectId "ride00000001".

(** [str(sample_ride_oid)]. *)
Definition sample_ride_id : string := "726964653030303030303031".

Definition sample_status_oid : ObjectId := mkObjectId "stat00000001".

Definition sample_ride_doc (status_ : string) (driver : option string)
    (updated : datetime) : Document Ride :=
  mkDocument sample_ride_oid
             (mkStored (mkRide "rider-1" "A" "B" status_ driver None)
                       1%Z updated).

Definition empty_store : Database := mkDatabase [] [] [].

(** One ride, requested at time 1. *)
Definition requested_store : Database :=
  mkDatabase [] [sample_ride_doc "requested" None 1%Z] [].

(** The same ride, completed at time 2. *)
Definition completed_store : Database :=
  mkDatabase [] [sample_ride_doc "completed" None 2%Z] [].

Definition sample_driver_oid : ObjectId := mkObjectId "user00000001".

(** [str(sample_driver_oid)]. *)
Definition sample_driver_id : string := "757365723030303030303031".

Definition sample_driver_doc : Document User :=
  mkDocument sample_driver_oid
             (mkStored (mkUser "Dana" driver (Some "555-0100") true) 1%Z 1%Z).

Definition sample_rider_oid : ObjectId := mkObjectId "user00000002".

Definition sample_rider_doc : Document User :=
  mkDocument sample_rider_oid
             (mkStored (mkUser "Riley" rider None true) 2%Z 2%Z).

Definition sample_status_doc (available : bool) (updated : datetime)
  : Document DriverStatus :=
  mkDocument sample_status_oid
             (mkStored (mkDriverStatus sample_driver_id available None None)
                       3%Z updated).

(** One driver, no status reported yet. *)
Definition driver_store : Database :=
  mkDatabase [sample_driver_doc] [] [].

(** A driver and a rider, no status reported yet. *)
Definition registered_store : Database :=
  mkDatabase [sample_driver_doc; sample_rider_doc] [] [].

(** A driver who reported being available at time 3, and a rider. *)
Definition available_store : Database :=
  mkDatabase [sample_driver_doc; sample_rider_doc] []
             [sample_status_doc true 3%Z].

Definition report (available : bool) : UpdateDriverStatus.t :=
  UpdateDriverStatus.mk sample_driver_id available None None.

Definition sample_status_oid2 : ObjectId := mkObjectId "stat00000002".

(** A second status document of the sample driver, written later. *)
Definition sample_status_doc_later : Document DriverStatus :=
  mkDocument sample_status_oid2
             (mkStored (mkDriverStatus sample_driver_id false None None)
                       4%Z 4%Z).

(** The sample driver with two status documents, the older one first: what
    two reports for one user leave when they overlap. *)
Definition duplicate_status_store : Database :=
  mkDatabase [sample_driver_doc] []
             [sample_status_doc true 3%Z; sample_status_doc_later].

(** ** Identifiers *)

Lemma ObjectId_eqb_eq (a b : ObjectId) : ObjectId_eqb a b = true <-> a = b.
Proof.
  destruct a as [x], b as [y]; unfold ObjectId_eqb; simpl.
  rewrite String.eqb_eq; split; congruence.
Qed.

Lemma ObjectId_eqb_refl (a : ObjectId) : ObjectId_eqb a a = true.
Proof. now apply ObjectId_eqb_eq. Qed.

Lemma ObjectId_eqb_neq (a b : ObjectId) : ObjectId_eqb a b = false <-> a <> b.
Proof.
  rewrite <- ObjectId_eqb_eq. destruct (ObjectId_eqb a b); split; congruence.
Qed.

(** ** The store operations *)

Section PymongoFacts.
Context {A : Type}.
Implicit Types (c : Collection A) (q : Document A -> bool)
               (set : Stored A -> Stored A) (oid : ObjectId).

Lemma update_one_fst q set c :
  fst (update_one q set c)
  = match find_one q c with Some _ => 1 | None => 0 end.
Proof.
  induction c as [|d c IH]; simpl; [reflexivity|].
  destruct (q d); [reflexivity|].
  destruct (update_one q set c); simpl in *; exact IH.
Qed.

Lemma update_one_unmatched q set c :
  find_one q c = None -> snd (update_one q set c) = c.
Proof.
  induction c as [|d c IH]; simpl; [reflexivity|].
  destruct (q d); [discriminate|]. intros H.
  destruct (update_one q set c); simpl in *. now rewrite IH.
Qed.

Lemma update_one_ids q set c :
  map _id (snd (update_one q set c)) = map _id c.
Proof.
  induction c as [|d c IH]; simpl; [reflexivity|].
  destruct (q d); [reflexivity|].
  destruct (update_one q set c); simpl in *. now rewrite IH.
Qed.

(** A projection that the ["$set"] leaves alone keeps its values. *)
Lemma update_one_frame {B : Type} (f : Document A -> B) q set c :
  (forall d, f (mkDocument (_id d) (set (rest d))) = f d) ->
  map f (snd (update_one q set c)) = map f c.
Proof.
  intros Hf. induction c as [|d c IH]; simpl; [reflexivity|].
  destruct (q d); simpl; [now rewrite Hf|].
  destruct (update_one q set c); simpl in *. now rewrite IH.
Qed.

Lemma find_one_update_one_same oid set c d :
  find_one (fun x => ObjectId_eqb (_id x) oid) c = Some d ->
  find_one (fun x => ObjectId_eqb (_id x) oid)
           (snd (update_one (fun x => ObjectId_eqb (_id x) oid) set c))
  = Some (mkDocument (_id d) (set (rest d))).
Proof.
  induction c as [|x c IH]; simpl; [discriminate|].
  destruct (ObjectId_eqb (_id x) oid) eqn:E.
  - intros [= ->]. simpl. now rewrite E.
  - intros H. destruct (update_one _ set c); simpl in *.
    rewrite E. now apply IH.
Qed.

Lemma find_one_update_one_other oid oid' set c :
  oid' <> oid ->
  find_one (fun x => ObjectId_eqb (_id x) oid')
           (snd (update_one (fun x => ObjectId_eqb (_id x) oid) set c))
  = find_one (fun x => ObjectId_eqb (_id x) oid') c.
Proof.
  intros Hne. induction c as [|x c IH]; simpl; [reflexivity|].
  destruct (ObjectId_eqb (_id x) oid) eqn:E.
  - simpl. apply ObjectId_eqb_eq in E.
    assert (ObjectId_eqb (_id x) oid' = false) as ->
      by (apply ObjectId_eqb_neq; congruence).
    reflexivity.
  - destruct (update_one _ set c); simpl in *. now rewrite IH.
Qed.

(** With unique keys, updating by the key of a stored document rewrites
    that document where it stands. *)
Lemma update_one_in_place set c (e : Document A) :
  NoDup (map _id c) ->
  snd (update_one (fun x => ObjectId_eqb (_id x) (_id e)) set c)
  = map (fun x => if ObjectId_eqb (_id x) (_id e)
                  then mkDocument (_id x) (set (rest x)) else x) c.
Proof.
  induction c as [|x c IH]; simpl; [reflexivity|].
  intros Hnd. inversion Hnd as [|? ? Hx Hc]; subst.
  destruct (ObjectId_eqb (_id x) (_id e)) eqn:E; simpl.
  - f_equal. apply ObjectId_eqb_eq in E. rewrite <- E.
    clear IH Hnd Hc E. induction c as [|y c IHc]; simpl; [reflexivity|].
    simpl in Hx.
    assert (ObjectId_eqb (_id y) (_id x) = false) as ->
      by (apply ObjectId_eqb_neq; intuition congruence).
    f_equal. apply IHc. intuition.
  - destruct (update_one _ set c); simpl in *. now rewrite IH.
Qed.

Lemma find_one_some q c d : find_one q c = Some d -> In d c /\ q d = true.
Proof. apply find_some. Qed.

Lemma find_one_none q c d : find_one q c = None -> In d c -> q d = false.
Proof. intros H Hin. exact (find_none q c H d Hin). Qed.
End PymongoFacts.

(** ** The ride handlers, case by case *)

Lemma with_ride_same (st : Database) : with_ride st (ride st) = st.
Proof. now destruct st. Qed.

Lemma with_driverstatus_same (st : Database) :
  with_driverstatus st (driverstatus st) = st.
Proof. now destruct st. Qed.

Lemma assign_driver_parsed st ride_id body now oid :
  ObjectId_from_str ride_id = Some oid ->
  assign_driver (Some st) ride_id body now
  = (match find_one (fun d => ObjectId_eqb (_id d) oid) (ride st) with
     | Some _ => inl (mkOk true)
     | None => inr NotFound
     end,
     Some (with_ride st
             (snd (update_one (fun d => ObjectId_eqb (_id d) oid)
                              (set_assignment body now) (ride st))))).
Proof.
  intros H. unfold assign_driver. rewrite H.
  pose proof (update_one_fst (fun d => ObjectId_eqb (_id d) oid)
                             (set_assignment body now) (ride st)) as Hm.
  destruct (update_one _ _ (ride st)) as [m c]; simpl in *.
  destruct (find_one _ (ride st)); subst m; reflexivity.
Qed.

Lemma update_ride_status_parsed st ride_id body now oid :
  ObjectId_from_str ride_id = Some oid ->
  str_in (UpdateRideStatus.status body) statuses = true ->
  update_ride_status (Some st) ride_id body now
  = (match find_one (fun d => ObjectId_eqb (_id d) oid) (ride st) with
     | Some _ => inl (mkOk true)
     | None => inr NotFound
     end,
     Some (with_ride st
             (snd (update_one (fun d => ObjectId_eqb (_id d) oid)
                              (set_ride_status body now) (ride st))))).
Proof.
  intros H Hs. unfold update_ride_status. rewrite H, Hs. simpl negb. cbv iota.
  pose proof (update_one_fst (fun d => ObjectId_eqb (_id d) oid)
                             (set_ride_status body now) (ride st)) as Hm.
  destruct (update_one _ _ (ride st)) as [m c]; simpl in *.
  destruct (find_one _ (ride st)); subst m; reflexivity.
Qed.

Lemma names_ride_parsed ride_id oid o :
  ObjectId_from_str ride_id = Some o ->
  names_ride ride_id oid = ObjectId_eqb o oid.
Proof. intros H. unfold names_ride. now rewrite H. Qed.

(** The status of the ride under [oid] after an update by key [o]. *)
Lemma ride_status_update_one st o oid set s :
  ride_status st oid = Some s ->
  ride_status
    (with_ride st (snd (update_one (fun d => ObjectId_eqb (_id d) o) set
                                   (ride st)))) oid
  = match find_one (fun d => ObjectId_eqb (_id d) oid) (ride st) with
    | Some r =>
        Some (if ObjectId_eqb o oid
              then status (fields (set (rest r))) else s)
    | None => None
    end.
Proof.
  unfold ride_status. simpl ride.
  destruct (find_one _ (ride st)) as [r|] eqn:Hr; [|discriminate].
  simpl. intros [= <-].
  destruct (ObjectId_eqb o oid) eqn:E.
  - apply ObjectId_eqb_eq in E; subst o.
    now rewrite (find_one_update_one_same oid set (ride st) r Hr).
  - apply ObjectId_eqb_neq in E.
    rewrite find_one_update_one_other by congruence. now rewrite Hr.
Qed.

Lemma sample_ride_id_parses :
  ObjectId_from_str sample_ride_id = Some sample_ride_oid.
Proof. reflexivity. Qed.

Lemma requested_store_reachable : reachable requested_store.
Proof.
  apply (reachable_serve empty_store
           (RequestRide (RideRequest.mk "rider-1" "A" "B"))
           sample_ride_oid 1%Z).
  - constructor.
  - repeat split; intros [].
  - reflexivity.
Qed.

Lemma completed_store_reachable : reachable completed_store.
Proof.
  apply (reachable_serve requested_store
           (SetRideStatus sample_ride_id (UpdateRideStatus.mk "completed"))
           sample_status_oid 2%Z).
  - apply requested_store_reachable.
  - repeat split; simpl; intuition discriminate.
  - reflexivity.
Qed.

(** ** Ride lifecycle *)

(** C1 as stated fails: with a malformed ride id the handler raises
    [InvalidId] before it looks at the status, so a status outside the enum
    does not give [InvalidStatus]. *)
Lemma update_ride_status_invalid_id_first :
  str_in "bogus" statuses = false /\
  fst (update_ride_status (Some requested_store) "not-an-id"
                          (UpdateRideStatus.mk "bogus") 5%Z)
  = inr InvalidId /\
  fst (update_ride_status (Some requested_store) "not-an-id"
                          (UpdateRideStatus.mk "bogus") 5%Z)
  <> inr InvalidStatus.
Proof. repeat split. discriminate. Qed.

(** C1 (amended): with the store configured, [update_ride_status] raises
    [InvalidId] for a malformed ride id whatever the status; for a
    well-formed id it raises [InvalidStatus] when the status is outside the
    five-value list; in both cases the store is left as it was.  When the id
    is well-formed, the status is in the list and the ride exists, the call
    succeeds and the ride's status becomes the supplied value whatever it was
    before; only the status and [updated_at] of that ride change. *)
Theorem update_ride_status_checks :
  forall (st : Database) (ride_id : string) (body : UpdateRideStatus.t)
         (now : datetime),
    (ObjectId_from_str ride_id = None ->
     update_ride_status (Some st) ride_id body now
     = (inr InvalidId, Some st)) /\
    (forall oid,
        ObjectId_from_str ride_id = Some oid ->
        str_in (UpdateRideStatus.status body) statuses = false ->
        update_ride_status (Some st) ride_id body now
        = (inr InvalidStatus, Some st)) /\
    (forall oid r,
        ObjectId_from_str ride_id = Some oid ->
        str_in (UpdateRideStatus.status body) statuses = true ->
        find_one (fun d => ObjectId_eqb (_id d) oid) (ride st) = Some r ->
        exists st',
          update_ride_status (Some st) ride_id body now
          = (inl (mkOk true), Some st') /\
          find_one (fun d => ObjectId_eqb (_id d) oid) (ride st')
          = Some (mkDocument
                    (_id r)
                    (mkStored
                       (mkRide (rider_id (fields (rest r)))
                               (pickup (fields (rest r)))
                               (dropoff (fields (rest r)))
                               (UpdateRideStatus.status body)
                               (driver_id (fields (rest r)))
                               (fare_estimate (fields (rest r))))
                       (created_at (rest r)) now)) /\
          (forall oid',
              oid' <> oid ->
              find_one (fun d => ObjectId_eqb (_id d) oid') (ride st')
              = find_one (fun d => ObjectId_eqb (_id d) oid') (ride st)) /\
          user st' = user st /\
          driverstatus st' = driverstatus st).
Proof.
  intros st ride_id body now. split; [|split].
  - intros H. unfold update_ride_status. now rewrite H.
  - intros oid H Hs. unfold update_ride_status. now rewrite H, Hs.
  - intros oid r H Hs Hr.
    rewrite (update_ride_status_parsed st ride_id body now oid H Hs), Hr.
    eexists; split; [reflexivity|]. simpl ride. repeat split.
    + now rewrite (find_one_update_one_same oid _ (ride st) r Hr).
    + intros oid' Hne. now apply find_one_update_one_other.
Qed.

Lemma update_ride_status_checks_witness :
  update_ride_status (Some completed_store) "not-an-id"
                     (UpdateRideStatus.mk "bogus") 5%Z
  = (inr InvalidId, Some completed_store) /\
  update_ride_status (Some completed_store) sample_ride_id
                     (UpdateRideStatus.mk "bogus") 5%Z
  = (inr InvalidStatus, Some completed_store) /\
  exists st',
    update_ride_status (Some completed_store) sample_ride_id
                       (UpdateRideStatus.mk "picked_up") 5%Z
    = (inl (mkOk true), Some st') /\
    ride st' = [sample_ride_doc "picked_up" None 5%Z].
Proof.
  split; [|split].
  - apply (update_ride_status_checks completed_store "not-an-id"
             (UpdateRideStatus.mk "bogus") 5%Z). reflexivity.
  - apply (proj1 (proj2 (update_ride_status_checks completed_store
             sample_ride_id (UpdateRideStatus.mk "bogus") 5%Z))
             sample_ride_oid); reflexivity.
  - destruct (proj2 (proj2 (update_ride_status_checks completed_store
             sample_ride_id (UpdateRideStatus.mk "picked_up") 5%Z))
             sample_ride_oid (sample_ride_doc "completed" None 2%Z)
             eq_refl eq_refl eq_refl) as [st' [Hrun _]].
    exists st'. split; [exact Hrun|].
    vm_compute in Hrun. now injection Hrun as <-.
Defined.

(** C2: with the store configured, [assign_driver] raises [InvalidId] for a
    malformed ride id, with the same outcome whatever the store holds (no
    lookup has happened); raises [NotFound] for a well-formed id that matches
    no ride, leaving the store as it was; and for a well-formed id that
    matches a ride it succeeds, sets that ride's [driver_id] to the given
    driver and its status to ["accepted"] whatever the status was, and
    touches no other ride and no other collection. *)
Theorem assign_driver_spec :
  forall (st : Database) (ride_id : string) (body : AssignDriver.t)
         (now : datetime),
    (ObjectId_from_str ride_id = None ->
     forall st0,
       assign_driver (Some st0) ride_id body now
       = (inr InvalidId, Some st0)) /\
    (forall oid,
        ObjectId_from_str ride_id = Some oid ->
        find_one (fun d => ObjectId_eqb (_id d) oid) (ride st) = None ->
        assign_driver (Some st) ride_id body now = (inr NotFound, Some st)) /\
    (forall oid r,
        ObjectId_from_str ride_id = Some oid ->
        find_one (fun d => ObjectId_eqb (_id d) oid) (ride st) = Some r ->
        exists st',
          assign_driver (Some st) ride_id body now
          = (inl (mkOk true), Some st') /\
          find_one (fun d => ObjectId_eqb (_id d) oid) (ride st')
          = Some (mkDocument
                    (_id r)
                    (mkStored
                       (mkRide (rider_id (fields (rest r)))
                               (pickup (fields (rest r)))
                               (dropoff (fields (rest r)))
                               "accepted"
                               (Some (AssignDriver.driver_id body))
                               (fare_estimate (fields (rest r))))
                       (created_at (rest r)) now)) /\
          (forall oid',
              oid' <> oid ->
              find_one (fun d => ObjectId_eqb (_id d) oid') (ride st')
              = find_one (fun d => ObjectId_eqb (_id d) oid') (ride st)) /\
          user st' = user st /\
          driverstatus st' = driverstatus st).
Proof.
  intros st ride_id body now. split; [|split].
  - intros H st0. unfold assign_driver. now rewrite H.
  - intros oid H Hr.
    rewrite (assign_driver_parsed st ride_id body now oid H), Hr.
    now rewrite update_one_unmatched, with_ride_same.
  - intros oid r H Hr.
    rewrite (assign_driver_parsed st ride_id body now oid H), Hr.
    eexists; split; [reflexivity|]. simpl ride. repeat split.
    + now rewrite (find_one_update_one_same oid _ (ride st) r Hr).
    + intros oid' Hne. now apply find_one_update_one_other.
Qed.

Lemma assign_driver_spec_witness :
  assign_driver (Some empty_store) "not-an-id"
                (AssignDriver.mk "driver-1") 5%Z
  = (inr InvalidId, Some empty_store) /\
  assign_driver (Some empty_store) sample_ride_id
                (AssignDriver.mk "driver-1") 5%Z
  = (inr NotFound, Some empty_store) /\
  exists st',
    assign_driver (Some requested_store) sample_ride_id
                  (AssignDriver.mk "driver-1") 5%Z
    = (inl (mkOk true), Some st') /\
    ride st' = [sample_ride_doc "accepted" (Some "driver-1") 5%Z].
Proof.
  split; [|split].
  - apply (proj1 (assign_driver_spec empty_store "not-an-id"
             (AssignDriver.mk "driver-1") 5%Z)). reflexivity.
  - apply (proj1 (proj2 (assign_driver_spec empty_store sample_ride_id
             (AssignDriver.mk "driver-1") 5%Z)) sample_ride_oid);
      reflexivity.
  - destruct (proj2 (proj2 (assign_driver_spec requested_store
             sample_ride_id (AssignDriver.mk "driver-1") 5%Z))
             sample_ride_oid (sample_ride_doc "requested" None 1%Z)
             eq_refl eq_refl) as [st' [Hrun _]].
    exists st'. split; [exact Hrun|].
    vm_compute in Hrun. now injection Hrun as <-.
Defined.

(** C3 as stated fails: a completed ride, reached by requesting it and then
    setting its status, is moved back to ["requested"] by the status handler
    and to ["accepted"] by the assignment handler. *)
Lemma terminal_status_overwritten :
  reachable completed_store /\
  ride_status completed_store sample_ride_oid = Some "completed" /\
  terminal "completed" = true /\
  (exists st',
      update_ride_status (Some completed_store) sample_ride_id
                         (UpdateRideStatus.mk "requested") 3%Z
      = (inl (mkOk true), Some st') /\
      ride_status st' sample_ride_oid = Some "requested") /\
  (exists st',
      assign_driver (Some completed_store) sample_ride_id
                    (AssignDriver.mk "driver-1") 3%Z
      = (inl (mkOk true), Some st') /\
      ride_status st' sample_ride_oid = Some "accepted").
Proof.
  split; [apply completed_store_reachable|].
  repeat split; eexists; split; reflexivity.
Qed.

(** C3 (amended): terminal states are not protected.  For a ride whose
    status is ["completed"] or ["cancelled"], a status call leaves the status
    as it was unless its ride id names this ride and the supplied status is
    in the five-value list, in which case the status becomes the supplied
    value; an assignment call leaves it as it was unless its ride id names
    this ride, in which case the status becomes ["accepted"]. *)
Theorem terminal_status_after_call :
  forall (st : Database) (oid : ObjectId) (s : string),
    ride_status st oid = Some s ->
    terminal s = true ->
    (forall ride_id body now,
        exists st',
          snd (update_ride_status (Some st) ride_id body now) = Some st' /\
          ride_status st' oid
          = Some (if names_ride ride_id oid
                     && str_in (UpdateRideStatus.status body) statuses
                  then UpdateRideStatus.status body else s)) /\
    (forall ride_id body now,
        exists st',
          snd (assign_driver (Some st) ride_id body now) = Some st' /\
          ride_status st' oid
          = Some (if names_ride ride_id oid then "accepted" else s)).
Proof.
  intros st oid s Hs _. split; intros ride_id body now.
  - destruct (ObjectId_from_str ride_id) as [o|] eqn:Hp.
    + rewrite (names_ride_parsed ride_id oid o Hp).
      destruct (str_in (UpdateRideStatus.status body) statuses) eqn:Hin.
      * rewrite (update_ride_status_parsed st ride_id body now o Hp Hin).
        eexists; split; [reflexivity|].
        rewrite (ride_status_update_one st o oid _ s Hs).
        unfold ride_status in Hs.
        destruct (find_one _ (ride st)); [|discriminate].
        now rewrite andb_true_r.
      * exists st. unfold update_ride_status. rewrite Hp, Hin.
        now rewrite andb_false_r.
    + exists st. unfold update_ride_status, names_ride. now rewrite Hp.
  - destruct (ObjectId_from_str ride_id) as [o|] eqn:Hp.
    + rewrite (names_ride_parsed ride_id oid o Hp).
      rewrite (assign_driver_parsed st ride_id body now o Hp).
      eexists; split; [reflexivity|].
      rewrite (ride_status_update_one st o oid _ s Hs).
      unfold ride_status in Hs.
      now destruct (find_one _ (ride st)).
    + exists st. unfold assign_driver, names_ride. now rewrite Hp.
Qed.

Lemma terminal_status_after_call_witness :
  (exists st',
      snd (update_ride_status (Some completed_store) sample_ride_id
                              (UpdateRideStatus.mk "bogus") 3%Z) = Some st' /\
      ride_status st' sample_ride_oid = Some "completed") /\
  (exists st',
      snd (update_ride_status (Some completed_store) sample_ride_id
                              (UpdateRideStatus.mk "requested") 3%Z)
      = Some st' /\
      ride_status st' sample_ride_oid = Some "requested") /\
  (exists st',
      snd (assign_driver (Some completed_store) "not-an-id"
                         (AssignDriver.mk "driver-1") 3%Z) = Some st' /\
      ride_status st' sample_ride_oid = Some "completed").
Proof.
  pose proof (terminal_status_after_call completed_store sample_ride_oid
                "completed" eq_refl eq_refl) as [Hset Hassign].
  split; [|split].
  - exact (Hset sample_ride_id (UpdateRideStatus.mk "bogus") 3%Z).
  - exact (Hset sample_ride_id (UpdateRideStatus.mk "requested") 3%Z).
  - exact (Hassign "not-an-id" (AssignDriver.mk "driver-1") 3%Z).
Defined.

(** C8: with the store configured, [request_ride] succeeds for every rider,
    pickup and dropoff; it appends one ride document carrying the request's
    three fields, status ["requested"] and no driver, keyed by the generated
    identifier, and returns that identifier as a string.  The other
    collections are untouched. *)
Theorem request_ride_creates_requested :
  forall (st : Database) (req : RideRequest.t) (oid : ObjectId)
         (now : datetime),
  exists st' new,
    request_ride (Some st) req oid now
    = (inl (IdResponse.mk (ObjectId_str (_id new))), Some st') /\
    ride st' = ride st ++ [new] /\
    _id new = oid /\
    status (fields (rest new)) = "requested" /\
    driver_id (fields (rest new)) = None /\
    rider_id (fields (rest new)) = RideRequest.rider_id req /\
    pickup (fields (rest new)) = RideRequest.pickup req /\
    dropoff (fields (rest new)) = RideRequest.dropoff req /\
    user st' = user st /\
    driverstatus st' = driverstatus st.
Proof.
  intros st req oid now.
  set (new := mkDocument oid
                (mkStored (mkRide (RideRequest.rider_id req)
                                  (RideRequest.pickup req)
                                  (RideRequest.dropoff req)
                                  "requested" None None) now now)).
  exists (with_ride st (ride st ++ [new])), new.
  repeat split.
Qed.

(** ** Sorting by creation time *)

Section SortFacts.
Context {A : Type}.
Implicit Types (d : Document A) (l : list (Document A)).

Lemma insert_desc_perm d l : Permutation (insert_desc d l) (d :: l).
Proof.
  induction l as [|x l IH]; simpl; [reflexivity|].
  destruct (created_at (rest x) <=? created_at (rest d))%Z; [reflexivity|].
  rewrite IH. apply perm_swap.
Qed.

Lemma sort_created_at_desc_perm l :
  Permutation (sort_created_at_desc l) l.
Proof.
  induction l as [|d l IH]; simpl; [reflexivity|].
  rewrite insert_desc_perm. now constructor.
Qed.

Lemma insert_desc_sorted d l :
  StronglySorted newer_or_same l ->
  StronglySorted newer_or_same (insert_desc d l).
Proof.
  induction 1 as [|x l Hl IH Hx]; simpl.
  - repeat constructor.
  - destruct (created_at (rest x) <=? created_at (rest d))%Z eqn:E.
    + apply Z.leb_le in E. constructor; [now constructor|].
      constructor; [exact E|].
      eapply Forall_impl; [|exact Hx].
      unfold newer_or_same. intros y Hy. lia.
    + apply Z.leb_gt in E. constructor; [exact IH|].
      rewrite (insert_desc_perm d l). constructor; [|exact Hx].
      unfold newer_or_same. lia.
Qed.

Lemma sort_created_at_desc_sorted l :
  StronglySorted newer_or_same (sort_created_at_desc l).
Proof.
  induction l as [|d l IH]; simpl; [constructor|].
  now apply insert_desc_sorted.
Qed.

Lemma Forall_firstn (P : Document A -> Prop) n l :
  Forall P l -> Forall P (firstn n l).
Proof.
  intros H. revert n. induction H; intros [|n]; simpl; constructor; auto.
Qed.

Lemma limit_sorted n l :
  StronglySorted newer_or_same l ->
  StronglySorted newer_or_same (limit n l).
Proof.
  unfold limit. intros H. revert n.
  induction H as [|x l Hl IH Hx]; intros [|n]; simpl; try constructor.
  - apply IH.
  - now apply Forall_firstn.
Qed.

Lemma limit_incl n l d : In d (limit n l) -> In d l.
Proof.
  unfold limit. intros H. rewrite <- (firstn_skipn n l).
  apply in_or_app. now left.
Qed.
End SortFacts.

Lemma to_str_id_doc_sorted {A : Type} (l : list (Document A)) :
  StronglySorted newer_or_same l ->
  StronglySorted newest_first (map to_str_id_doc l).
Proof.
  induction 1 as [|x l Hl IH Hx]; simpl; constructor; [exact IH|].
  apply Forall_map. exact Hx.
Qed.

Lemma str_bool_true (r : string) : r <> "" -> str_bool r = true.
Proof. destruct r; [congruence|reflexivity]. Qed.

(** ** Listing rides *)

(** C7 as stated fails for the empty rider id: it is supplied, yet the ride
    of another rider is returned. *)
Lemma list_rides_empty_rider_id_unfiltered :
  exists x,
    list_rides (Some requested_store) (Some "") = inl [x] /\
    rider_id (fields (items x)) = "rider-1" /\
    rider_id (fields (items x)) <> "".
Proof. eexists. repeat split. discriminate. Qed.

(** C7 (amended): with the store configured, [list_rides] returns the first
    20 of the matching rides arranged newest-created-first, so the result is
    ordered newest first and has [min 20 n] entries when [n] rides match.
    When a non-empty rider id is supplied the matching rides are those with
    that rider id, so every returned ride has it; when none is supplied
    every ride matches. *)
Theorem list_rides_newest_first_capped :
  forall (st : Database) (rider_id_ : option string),
  exists res,
    list_rides (Some st) rider_id_ = inl res /\
    StronglySorted newest_first res /\
    List.length res <= 20 /\
    List.length res
    = Nat.min 20 (List.length (find (filter_q rider_id_) (ride st))) /\
    (exists all,
        Permutation all (find (filter_q rider_id_) (ride st)) /\
        StronglySorted newer_or_same all /\
        res = map to_str_id_doc (firstn 20 all)) /\
    (forall r,
        rider_id_ = Some r -> r <> "" ->
        (forall d, filter_q rider_id_ d = true
                   <-> rider_id (fields (rest d)) = r) /\
        (forall x, In x res -> rider_id (fields (items x)) = r)) /\
    (rider_id_ = None ->
     find (filter_q rider_id_) (ride st) = ride st).
Proof.
  intros st rid. eexists. split; [reflexivity|].
  set (matching := find (filter_q rid) (ride st)).
  split; [|split; [|split; [|split; [|split]]]].
  - apply to_str_id_doc_sorted, limit_sorted, sort_created_at_desc_sorted.
  - rewrite length_map. apply firstn_le_length.
  - rewrite length_map. unfold limit. rewrite length_firstn.
    now rewrite (Permutation_length (sort_created_at_desc_perm matching)).
  - exists (sort_created_at_desc matching). split; [|split].
    + apply sort_created_at_desc_perm.
    + apply sort_created_at_desc_sorted.
    + reflexivity.
  - intros r -> Hr.
    assert (forall d, filter_q (Some r) d = true
                      <-> rider_id (fields (rest d)) = r) as Hq.
    { intros d. unfold filter_q. rewrite (str_bool_true r Hr).
      apply String.eqb_eq. }
    split; [exact Hq|].
    intros x Hx. apply in_map_iff in Hx as [d [<- Hd]].
    apply limit_incl in Hd.
    apply (Permutation_in _ (sort_created_at_desc_perm matching)) in Hd.
    apply filter_In in Hd as [_ Hd]. simpl. now apply Hq.
  - intros ->. apply filter_true.
Qed.

Lemma list_rides_newest_first_capped_witness :
  exists res,
    list_rides (Some requested_store) (Some "rider-1") = inl res /\
    (forall x, In x res -> rider_id (fields (items x)) = "rider-1").
Proof.
  destruct (list_rides_newest_first_capped requested_store (Some "rider-1"))
    as [res [Hrun [_ [_ [_ [_ [Hfilter _]]]]]]].
  exists res. split; [exact Hrun|].
  apply (Hfilter "rider-1" eq_refl). discriminate.
Defined.

(** C9: the empty string as rider id behaves as no rider id at all, with or
    without a configured store; it is not used as a filter, so the rides of
    every rider are listed. *)
Theorem list_rides_empty_string_is_no_filter :
  (forall db, list_rides db (Some "") = list_rides db None) /\
  (forall st,
      list_rides (Some st) (Some "")
      = inl (map to_str_id_doc
                 (limit 20 (sort_created_at_desc (ride st))))).
Proof.
  split.
  - intros db. reflexivity.
  - intros st. unfold list_rides, find.
    change (filter_q (Some "")) with (fun _ : Document Ride => true).
    now rewrite filter_true.
Qed.

(** ** The store invariant *)

Lemma NoDup_snoc {B : Type} (l : list B) (x : B) :
  NoDup l -> ~ In x l -> NoDup (l ++ [x]).
Proof.
  intros Hl Hx. induction Hl as [|y l Hy Hl IH]; simpl.
  - constructor; [intros []|constructor].
  - constructor.
    + rewrite in_app_iff. simpl. intros [H|[H|[]]]; [now apply Hy|].
      subst. apply Hx. now left.
    + apply IH. intros H. apply Hx. now right.
Qed.

Lemma find_one_none_user_id (uid : string) (c : Collection DriverStatus) :
  find_one (fun d => String.eqb (user_id (fields (rest d))) uid) c = None ->
  ~ In uid (map status_user_id c).
Proof.
  intros H Hin. apply in_map_iff in Hin as [d [Hd Hin]].
  pose proof (find_one_none _ c d H Hin) as Hq. simpl in Hq.
  unfold status_user_id in Hd. rewrite Hd, String.eqb_refl in Hq.
  discriminate.
Qed.

Lemma set_driver_status_user_id body now (d : Document DriverStatus) :
  status_user_id (mkDocument (_id d) (set_driver_status body now (rest d)))
  = status_user_id d.
Proof. reflexivity. Qed.

(** Every request keeps the invariant, provided the identifier the
    generator issues for it is new. *)
Lemma serve_inv st r oid now st' :
  StoreInv st ->
  fresh oid st ->
  serve (Some st) r oid now = Some st' ->
  StoreInv st'.
Proof.
  intros [Hu Hr Hs Hsu] (Fu & Fr & Fs).
  destruct r as [u|req|ride_id body|ride_id body|body]; unfold serve.
  - intros [= <-]. constructor; simpl; auto.
    unfold insert_one. rewrite map_app. now apply NoDup_snoc.
  - intros [= <-]. constructor; simpl; auto.
    unfold insert_one. rewrite map_app. now apply NoDup_snoc.
  - destruct (ObjectId_from_str ride_id) as [o|] eqn:Hp.
    + rewrite (assign_driver_parsed st ride_id body now o Hp). simpl.
      intros [= <-]. constructor; simpl; auto.
      now rewrite update_one_ids.
    + unfold assign_driver. rewrite Hp. simpl. intros [= <-].
      now constructor.
  - destruct (ObjectId_from_str ride_id) as [o|] eqn:Hp.
    + destruct (str_in (UpdateRideStatus.status body) statuses) eqn:Hin.
      * rewrite (update_ride_status_parsed st ride_id body now o Hp Hin).
        simpl. intros [= <-]. constructor; simpl; auto.
        now rewrite update_one_ids.
      * unfold update_ride_status. rewrite Hp, Hin. simpl. intros [= <-].
        now constructor.
    + unfold update_ride_status. rewrite Hp. simpl. intros [= <-].
      now constructor.
  - unfold update_driver_status.
    destruct (find_one _ (driverstatus st)) as [e|] eqn:He.
    + pose proof (update_one_ids
                    (fun d => ObjectId_eqb (_id d) (_id e))
                    (set_driver_status body now) (driverstatus st)) as Hids.
      pose proof (update_one_frame status_user_id
                    (fun d => ObjectId_eqb (_id d) (_id e))
                    (set_driver_status body now) (driverstatus st)
                    (set_driver_status_user_id body now)) as Husers.
      destruct (update_one _ _ (driverstatus st)) as [m c]; simpl in *.
      intros [= <-]. constructor; simpl; auto.
      * now rewrite Hids.
      * now rewrite Husers.
    + simpl. intros [= <-]. constructor; simpl; auto.
      * unfold insert_one. rewrite map_app. now apply NoDup_snoc.
      * unfold insert_one. rewrite map_app. apply NoDup_snoc; [exact Hsu|].
        now apply find_one_none_user_id.
Qed.

Lemma reachable_inv st : reachable st -> StoreInv st.
Proof.
  induction 1 as [|st r oid now st' _ IH Hf Hs].
  - constructor; constructor.
  - exact (serve_inv st r oid now st' IH Hf Hs).
Qed.

(** ** Driver status lookups *)

Lemma find_one_app_unmatched {A : Type} (q : Document A -> bool)
    (c : Collection A) (d : Document A) :
  find_one q c = None -> q d = true -> find_one q (c ++ [d]) = Some d.
Proof.
  unfold find_one. induction c as [|x c IH]; simpl.
  - now intros _ ->.
  - destruct (q x); [discriminate|exact IH].
Qed.

Lemma find_one_map_inv {A : Type} (q : Document A -> bool)
    (g : Document A -> Document A) (c : Collection A) :
  (forall d, q (g d) = q d) ->
  find_one q (map g c) = option_map g (find_one q c).
Proof.
  intros Hq. unfold find_one. induction c as [|x c IH]; simpl.
  - reflexivity.
  - rewrite Hq. now destruct (q x).
Qed.

(** With at most one document per user, the first match is the only one. *)
Lemma find_unique_user (uid : string) (c : Collection DriverStatus)
    (e : Document DriverStatus) :
  NoDup (map status_user_id c) ->
  find_one (fun d => String.eqb (status_user_id d) uid) c = Some e ->
  find (fun d => String.eqb (status_user_id d) uid) c = [e].
Proof.
  unfold find, find_one. induction c as [|x c IH]; simpl; [discriminate|].
  intros Hnd. inversion Hnd as [|? ? Hx Hc]; subst.
  destruct (String.eqb (status_user_id x) uid) eqn:E.
  - intros [= ->]. f_equal. apply String.eqb_eq in E.
    clear IH Hnd Hc. induction c as [|y c IHc]; simpl; [reflexivity|].
    simpl in Hx.
    destruct (String.eqb (status_user_id y) uid) eqn:Ey.
    + apply String.eqb_eq in Ey. exfalso. apply Hx. left. congruence.
    + apply IHc. intros H. apply Hx. now right.
  - now apply IH.
Qed.

Lemma filter_at_most_one (uid : string) (c : Collection DriverStatus) :
  NoDup (map status_user_id c) ->
  List.length (find (fun d => String.eqb (status_user_id d) uid) c) <= 1.
Proof.
  intros Hnd.
  destruct (find_one (fun d => String.eqb (status_user_id d) uid) c)
    as [e|] eqn:He.
  - now rewrite (find_unique_user uid c e Hnd He).
  - assert (find (fun d => String.eqb (status_user_id d) uid) c = []) as ->;
      [|simpl; lia].
    unfold find. clear Hnd. induction c as [|x c IH]; simpl; [reflexivity|].
    unfold find_one in He. simpl in He.
    destruct (String.eqb (status_user_id x) uid); [discriminate|].
    now apply IH.
Qed.

Lemma most_recent_status_none (uid : string) (c : Collection DriverStatus) :
  ~ In uid (map status_user_id c) -> most_recent_status uid c = None.
Proof.
  induction c as [|d c IH]; simpl; [reflexivity|]. intros H.
  destruct (String.eqb (status_user_id d) uid) eqn:E.
  - apply String.eqb_eq in E. exfalso. apply H. now left.
  - apply IH. intros Hin. apply H. now right.
Qed.

(** With at most one document per user, the most recent status of a user
    is the first one the store finds. *)
Lemma most_recent_status_find_one (uid : string)
    (c : Collection DriverStatus) :
  NoDup (map status_user_id c) ->
  most_recent_status uid c
  = find_one (fun d => String.eqb (status_user_id d) uid) c.
Proof.
  unfold find_one. induction c as [|d c IH]; simpl; [reflexivity|].
  intros Hnd. inversion Hnd as [|? ? Hx Hc]; subst.
  destruct (String.eqb (status_user_id d) uid) eqn:E.
  - apply String.eqb_eq in E. subst uid.
    now rewrite (most_recent_status_none _ c Hx).
  - now apply IH.
Qed.

Lemma driver_store_reachable : reachable driver_store.
Proof.
  apply (reachable_serve empty_store
           (CreateUser (mkUser "Dana" driver (Some "555-0100") true))
           sample_driver_oid 1%Z).
  - constructor.
  - repeat split; intros [].
  - reflexivity.
Qed.

Lemma registered_store_reachable : reachable registered_store.
Proof.
  apply (reachable_serve driver_store
           (CreateUser (mkUser "Riley" rider None true))
           sample_rider_oid 2%Z).
  - apply driver_store_reachable.
  - repeat split; simpl; intuition discriminate.
  - reflexivity.
Qed.

Lemma registered_store_fresh : fresh sample_status_oid registered_store.
Proof. repeat split; simpl; intuition discriminate. Qed.

Lemma available_store_reachable : reachable available_store.
Proof.
  apply (reachable_serve registered_store
           (ReportDriverStatus (report true)) sample_status_oid 3%Z).
  - apply registered_store_reachable.
  - apply registered_store_fresh.
  - reflexivity.
Qed.

(** ** Driver directory *)

(** C5: with the store configured, [list_available_drivers] returns one
    entry per user with role driver and [is_active] true, in store order and
    with the user's own fields: every such user appears, and no entry is a
    rider or an inactive user. *)
Theorem list_available_drivers_exact :
  forall st : Database,
  exists res,
    list_available_drivers (Some st) = inl res /\
    map profile res
    = map to_str_id_doc
          (filter (fun d => Role_eqb (role (fields (rest d))) driver
                            && is_active (fields (rest d)))
                  (user st)) /\
    (forall u,
        In u (user st) ->
        role (fields (rest u)) = driver ->
        is_active (fields (rest u)) = true ->
        exists p, In p res /\ profile p = to_str_id_doc u) /\
    (forall p,
        In p res ->
        role (fields (items (profile p))) = driver /\
        is_active (fields (items (profile p))) = true /\
        exists u, In u (user st) /\ profile p = to_str_id_doc u).
Proof.
  intros st. eexists. split; [reflexivity|].
  assert (forall d : Document User,
             Role_eqb (role (fields (rest d))) driver
             && Bool.eqb (is_active (fields (rest d))) true = true
             <-> role (fields (rest d)) = driver
                 /\ is_active (fields (rest d)) = true) as Hq.
  { intros d. rewrite andb_true_iff.
    destruct (role (fields (rest d))), (is_active (fields (rest d)));
      simpl; intuition discriminate. }
  split; [|split].
  - rewrite map_map. simpl. unfold find. f_equal.
    apply filter_ext. intros d.
    now destruct (is_active (fields (rest d))).
  - intros u Hin Hrole Hactive.
    eexists. split.
    + apply in_map_iff. exists u. split; [reflexivity|].
      apply filter_In. split; [exact Hin|]. apply Hq. now split.
    + reflexivity.
  - intros p Hp. apply in_map_iff in Hp as [u [<- Hu]].
    apply filter_In in Hu as [Hin Hu]. apply Hq in Hu as [Hrole Hactive].
    simpl. repeat split; auto. now exists u.
Qed.

Lemma list_available_drivers_exact_witness :
  exists res,
    list_available_drivers (Some available_store) = inl res /\
    (exists p, In p res /\ profile p = to_str_id_doc sample_driver_doc) /\
    (forall p, In p res -> role (fields (items (profile p))) = driver).
Proof.
  destruct (list_available_drivers_exact available_store)
    as [res [Hrun [_ [Hall Honly]]]].
  exists res. split; [exact Hrun|]. split.
  - apply (Hall sample_driver_doc); [now left|reflexivity|reflexivity].
  - intros p Hp. exact (proj1 (Honly p Hp)).
Defined.

(** The store finds the first status document of a user, which need not be
    the most recent one when two documents carry the same [user_id]; no
    sequence of requests produces such a store. *)
Remark first_status_not_latest_with_duplicates :
  let older := sample_status_doc true 3%Z in
  let newer :=
    mkDocument sample_ride_oid
               (mkStored (mkDriverStatus sample_driver_id false None None)
                         4%Z 4%Z) in
  find_one (fun d => String.eqb (status_user_id d) sample_driver_id)
           [older; newer] = Some older /\
  most_recent_status sample_driver_id [older; newer] = Some newer.
Proof. split; reflexivity. Qed.

Lemma find_one_split {A : Type} (q : Document A -> bool) (c : Collection A)
    (d : Document A) :
  find_one q c = Some d ->
  exists before after,
    c = before ++ d :: after /\ q d = true /\
    forall x, In x before -> q x = false.
Proof.
  unfold find_one. induction c as [|x c IH]; simpl; [discriminate|].
  destruct (q x) eqn:E.
  - intros [= ->]. exists [], c. repeat split; auto. intros y [].
  - intros H. destruct (IH H) as (before & after & -> & Hd & Hb).
    exists (x :: before), after. repeat split; auto.
    intros y [<-|Hy]; auto.
Qed.

Lemma most_recent_status_single (uid : string)
    (c : Collection DriverStatus) :
  List.length (find (fun s => String.eqb (status_user_id s) uid) c) <= 1 ->
  most_recent_status uid c
  = find_one (fun s => String.eqb (status_user_id s) uid) c.
Proof.
  unfold find, find_one. induction c as [|d c IH]; simpl; [reflexivity|].
  destruct (String.eqb (status_user_id d) uid) eqn:E; simpl; [|exact IH].
  intros Hlen. rewrite most_recent_status_none; [reflexivity|].
  intros Hin. apply in_map_iff in Hin as [x [Hx Hin]].
  assert (In x (filter (fun s => String.eqb (status_user_id s) uid) c))
    as Hfx by (apply filter_In; split; [exact Hin|now apply String.eqb_eq]).
  destruct (filter _ c); [destruct Hfx|simpl in Hlen; lia].
Qed.

Lemma Forall2_map_r {B C : Type} (R : B -> C -> Prop) (f : B -> C)
    (l : list B) :
  (forall x, In x l -> R x (f x)) -> Forall2 R l (map f l).
Proof.
  induction l as [|x l IH]; simpl; constructor.
  - apply H. now left.
  - apply IH. intros y Hy. apply H. now right.
Qed.

(** C6 as stated fails: with two status documents for one driver, the older
    one first in the store, the listing attaches the older one, not the most
    recent. *)
Lemma first_status_attached_not_latest :
  exists p,
    list_available_drivers (Some duplicate_status_store) = inl [p] /\
    id (profile p) = sample_driver_id /\
    profile_status p = Some (rest (sample_status_doc true 3%Z)) /\
    most_recent_status (id (profile p)) (driverstatus duplicate_status_store)
    = Some sample_status_doc_later /\
    profile_status p
    <> option_map rest
         (most_recent_status (id (profile p))
                             (driverstatus duplicate_status_store)).
Proof. eexists. repeat split. discriminate. Qed.

(** C6 (amended): with the store configured, the listing has one entry per
    active driver, in store order, carrying the string form of the user's
    key as id and the user's fields.  The status attached to an entry is
    null when no status document has that id as [user_id], and otherwise is
    the first status document in store order with that [user_id], without
    its key; no ordering by recency is applied.  When at most one status
    document has that [user_id], which is what requests served one after the
    other maintain, the attached document is the most recent one. *)
Theorem list_available_drivers_first_status :
  forall st : Database,
  exists res,
    list_available_drivers (Some st) = inl res /\
    Forall2
      (fun u p =>
         let uid := ObjectId_str (_id u) in
         id (profile p) = uid /\
         items (profile p) = rest u /\
         ((~ In uid (map status_user_id (driverstatus st)) /\
           profile_status p = None)
          \/
          (exists before d after,
              driverstatus st = before ++ d :: after /\
              status_user_id d = uid /\
              ~ In uid (map status_user_id before) /\
              profile_status p = Some (rest d))) /\
         (List.length
            (find (fun s => String.eqb (status_user_id s) uid)
                  (driverstatus st)) <= 1 ->
          profile_status p
          = option_map rest (most_recent_status uid (driverstatus st))))
      (filter (fun d => Role_eqb (role (fields (rest d))) driver
                        && is_active (fields (rest d)))
              (user st))
      res.
Proof.
  intros st. eexists. split; [reflexivity|].
  rewrite (filter_ext
             (fun d : Document User =>
                Role_eqb (role (fields (rest d))) driver
                && is_active (fields (rest d)))
             (fun d : Document User =>
                Role_eqb (role (fields (rest d))) driver
                && Bool.eqb (is_active (fields (rest d))) true))
    by (intros d; now destruct (is_active (fields (rest d)))).
  apply Forall2_map_r. intros u _. cbv zeta.
  cbn [profile profile_status id items to_str_id_doc].
  set (uid := ObjectId_str (_id u)).
  change (fun s : Document DriverStatus =>
            String.eqb (user_id (fields (rest s))) uid)
    with (fun s : Document DriverStatus =>
            String.eqb (status_user_id s) uid).
  split; [reflexivity|]. split; [reflexivity|]. split.
  - destruct (find_one (fun s => String.eqb (status_user_id s) uid)
                       (driverstatus st)) as [d|] eqn:Hd.
    + right. destruct (find_one_split _ _ d Hd)
        as (before & after & Hc & Hq & Hb).
      exists before, d, after. split; [exact Hc|].
      split; [now apply String.eqb_eq|]. split; [|reflexivity].
      intros Hin. apply in_map_iff in Hin as [x [Hx Hin]].
      specialize (Hb x Hin). simpl in Hb. rewrite Hx in Hb.
      rewrite String.eqb_refl in Hb. discriminate.
    + left. split; [|reflexivity]. now apply find_one_none_user_id.
  - intros Hone. now rewrite most_recent_status_single.
Qed.

Lemma list_available_drivers_first_status_witness :
  exists p,
    list_available_drivers (Some available_store) = inl [p] /\
    profile_status p
    = option_map rest
        (most_recent_status sample_driver_id (driverstatus available_store)).
Proof.
  destruct (list_available_drivers_first_status available_store)
    as (res & Hrun & Hres).
  change (filter _ (user available_store)) with [sample_driver_doc] in Hres.
  inversion Hres as [|u p l l' (_ & _ & _ & Hrecent) Hrest]; subst.
  inversion Hrest; subst.
  exists p. split; [exact Hrun|]. apply Hrecent. simpl. lia.
Defined.

(** ** Driver status upsert *)

Lemma update_driver_status_existing st body oid now e :
  find_one (fun d => String.eqb (status_user_id d)
                                (UpdateDriverStatus.user_id body))
           (driverstatus st) = Some e ->
  update_driver_status (Some st) body oid now
  = (inl (mkOk true),
     Some (with_driverstatus st
             (snd (update_one (fun d => ObjectId_eqb (_id d) (_id e))
                              (set_driver_status body now)
                              (driverstatus st))))).
Proof.
  intros He. unfold update_driver_status.
  change (fun d : Document DriverStatus =>
            String.eqb (user_id (fields (rest d)))
                       (UpdateDriverStatus.user_id body))
    with (fun d : Document DriverStatus =>
            String.eqb (status_user_id d) (UpdateDriverStatus.user_id body)).
  rewrite He. now destruct (update_one _ _ (driverstatus st)).
Qed.

Lemma update_driver_status_new st body oid now :
  find_one (fun d => String.eqb (status_user_id d)
                                (UpdateDriverStatus.user_id body))
           (driverstatus st) = None ->
  update_driver_status (Some st) body oid now
  = (inl (mkOk true),
     Some (with_driverstatus st
             (driverstatus st ++ [first_report body oid now]))).
Proof.
  intros He. unfold update_driver_status.
  change (fun d : Document DriverStatus =>
            String.eqb (user_id (fields (rest d)))
                       (UpdateDriverStatus.user_id body))
    with (fun d : Document DriverStatus =>
            String.eqb (status_user_id d) (UpdateDriverStatus.user_id body)).
  now rewrite He.
Qed.

Lemma report_in_place_found body now e c :
  find_one (fun d => String.eqb (status_user_id d)
                                (UpdateDriverStatus.user_id body)) c
  = Some e ->
  find_one (fun d => String.eqb (status_user_id d)
                                (UpdateDriverStatus.user_id body))
           (report_in_place body now e c)
  = Some (reported body now e).
Proof.
  intros He. unfold report_in_place.
  rewrite find_one_map_inv, He; simpl.
  - now rewrite ObjectId_eqb_refl.
  - intros d. now destruct (ObjectId_eqb (_id d) (_id e)).
Qed.

Lemma report_in_place_users body now e c :
  map status_user_id (report_in_place body now e c) = map status_user_id c.
Proof.
  unfold report_in_place. rewrite map_map. apply map_ext. intros d.
  now destruct (ObjectId_eqb (_id d) (_id e)).
Qed.

Lemma report_in_place_ids body now e c :
  map _id (report_in_place body now e c) = map _id c.
Proof.
  unfold report_in_place. rewrite map_map. apply map_ext. intros d.
  now destruct (ObjectId_eqb (_id d) (_id e)).
Qed.

(** A report, whichever branch it takes, keeps the two uniqueness facts of
    the status collection and leaves one document for the reporting user,
    carrying the reported values. *)
Lemma update_driver_status_upsert st body oid now :
  NoDup (map _id (driverstatus st)) ->
  NoDup (map status_user_id (driverstatus st)) ->
  (find_one (fun d => String.eqb (status_user_id d)
                                 (UpdateDriverStatus.user_id body))
            (driverstatus st) = None ->
   ~ In oid (map _id (driverstatus st))) ->
  exists st' d,
    update_driver_status (Some st) body oid now
    = (inl (mkOk true), Some st') /\
    NoDup (map _id (driverstatus st')) /\
    NoDup (map status_user_id (driverstatus st')) /\
    find (fun d => String.eqb (status_user_id d)
                              (UpdateDriverStatus.user_id body))
         (driverstatus st') = [d] /\
    is_available (fields (rest d)) = UpdateDriverStatus.is_available body /\
    (forall e,
        find_one (fun d => String.eqb (status_user_id d)
                                      (UpdateDriverStatus.user_id body))
                 (driverstatus st) = Some e ->
        driverstatus st' = report_in_place body now e (driverstatus st) /\
        d = reported body now e) /\
    (find_one (fun d => String.eqb (status_user_id d)
                                   (UpdateDriverStatus.user_id body))
              (driverstatus st) = None ->
     driverstatus st' = driverstatus st ++ [first_report body oid now] /\
     d = first_report body oid now).
Proof.
  intros Hids Husers Hfresh.
  destruct (find_one (fun d => String.eqb (status_user_id d)
                                          (UpdateDriverStatus.user_id body))
                     (driverstatus st)) as [e|] eqn:He.
  - exists (with_driverstatus st
              (report_in_place body now e (driverstatus st))),
           (reported body now e).
    assert (NoDup (map status_user_id
                       (report_in_place body now e (driverstatus st))))
      as Husers' by now rewrite report_in_place_users.
    split; [|split; [|split; [|split; [|split; [|split]]]]].
    + rewrite (update_driver_status_existing st body oid now e He).
      now rewrite (update_one_in_place _ (driverstatus st) e Hids).
    + simpl. now rewrite report_in_place_ids.
    + exact Husers'.
    + simpl. apply find_unique_user; [exact Husers'|].
      now apply report_in_place_found.
    + reflexivity.
    + intros e' [= <-]. now split.
    + discriminate.
  - exists (with_driverstatus st
              (driverstatus st ++ [first_report body oid now])),
           (first_report body oid now).
    assert (NoDup (map status_user_id
                       (driverstatus st ++ [first_report body oid now])))
      as Husers'.
    { rewrite map_app. apply NoDup_snoc; [exact Husers|].
      now apply find_one_none_user_id. }
    split; [|split; [|split; [|split; [|split; [|split]]]]].
    + now apply update_driver_status_new.
    + simpl. rewrite map_app. apply NoDup_snoc; [exact Hids|].
      exact (Hfresh eq_refl).
    + exact Husers'.
    + simpl. apply find_unique_user; [exact Husers'|].
      apply find_one_app_unmatched; [exact He|].
      apply String.eqb_refl.
    + reflexivity.
    + discriminate.
    + now split.
Qed.

Lemma find_first {A : Type} (q : Document A -> bool) (c : Collection A)
    (d : Document A) (l : list (Document A)) :
  find q c = d :: l -> find_one q c = Some d.
Proof.
  unfold find, find_one. induction c as [|x c IH]; simpl; [discriminate|].
  destruct (q x); [now intros [= -> _]|exact IH].
Qed.

(** C4: in every store that requests served one after the other produce, a
    report succeeds and leaves at most one status document per [user_id].
    If the reporting user has a document it is rewritten where it stands,
    under the same key; otherwise one document is appended.  A second report
    for the same user then leaves exactly one document for that user, and
    its [is_available] is the one of the second report. *)
Theorem update_driver_status_at_most_one :
  forall st : Database,
    reachable st ->
    forall (body : UpdateDriverStatus.t) (oid : ObjectId) (now : datetime),
      fresh oid st ->
      exists st',
        update_driver_status (Some st) body oid now
        = (inl (mkOk true), Some st') /\
        (forall u,
            List.length
              (find (fun d => String.eqb (status_user_id d) u)
                    (driverstatus st')) <= 1) /\
        (forall e,
            find_one (fun d => String.eqb (status_user_id d)
                                          (UpdateDriverStatus.user_id body))
                     (driverstatus st) = Some e ->
            driverstatus st' = report_in_place body now e (driverstatus st) /\
            map _id (driverstatus st') = map _id (driverstatus st) /\
            find_one (fun d => String.eqb (status_user_id d)
                                          (UpdateDriverStatus.user_id body))
                     (driverstatus st')
            = Some (mkDocument (_id e)
                               (set_driver_status body now (rest e)))) /\
        (find_one (fun d => String.eqb (status_user_id d)
                                       (UpdateDriverStatus.user_id body))
                  (driverstatus st) = None ->
         driverstatus st'
         = driverstatus st ++ [first_report body oid now]) /\
        (forall (body2 : UpdateDriverStatus.t) (oid2 : ObjectId)
                (now2 : datetime),
            UpdateDriverStatus.user_id body2
            = UpdateDriverStatus.user_id body ->
            exists st'' d,
              update_driver_status (Some st') body2 oid2 now2
              = (inl (mkOk true), Some st'') /\
              find (fun d => String.eqb (status_user_id d)
                                        (UpdateDriverStatus.user_id body))
                   (driverstatus st'') = [d] /\
              is_available (fields (rest d))
              = UpdateDriverStatus.is_available body2).
Proof.
  intros st Hreach body oid now (_ & _ & Hfresh).
  apply reachable_inv in Hreach as [_ _ Hids Husers].
  destruct (update_driver_status_upsert st body oid now Hids Husers
              (fun _ => Hfresh))
    as (st' & d & Hrun & Hids' & Husers' & Hone & _ & Hold & Hnew).
  exists st'. split; [exact Hrun|].
  split; [|split; [|split]].
  - intros u. now apply filter_at_most_one.
  - intros e He. destruct (Hold e He) as [Hc Hd]. split; [exact Hc|].
    split.
    + rewrite Hc. apply report_in_place_ids.
    + rewrite Hc. now apply report_in_place_found.
  - intros He. exact (proj1 (Hnew He)).
  - intros body2 oid2 now2 Hu.
    assert (find_one (fun x => String.eqb (status_user_id x)
                                          (UpdateDriverStatus.user_id body2))
                     (driverstatus st') = Some d) as Hd.
    { rewrite Hu. exact (find_first _ _ d [] Hone). }
    destruct (update_driver_status_upsert st' body2 oid2 now2 Hids' Husers')
      as (st'' & d2 & Hrun2 & _ & _ & Hone2 & Havail & _ & _).
    { rewrite Hd. discriminate. }
    exists st'', d2. rewrite <- Hu. now repeat split.
Qed.

Lemma update_driver_status_at_most_one_witness :
  exists st' st'' d,
    update_driver_status (Some registered_store) (report true)
                         sample_status_oid 3%Z
    = (inl (mkOk true), Some st') /\
    update_driver_status (Some st') (report false) sample_ride_oid 4%Z
    = (inl (mkOk true), Some st'') /\
    find (fun d => String.eqb (status_user_id d) sample_driver_id)
         (driverstatus st'') = [d] /\
    is_available (fields (rest d)) = false.
Proof.
  destruct (update_driver_status_at_most_one registered_store
              registered_store_reachable (report true) sample_status_oid 3%Z
              registered_store_fresh)
    as (st' & Hrun & _ & _ & _ & Hsecond).
  destruct (Hsecond (report false) sample_ride_oid 4%Z eq_refl)
    as (st'' & d & Hrun2 & Hone & Havail).
  exists st', st'', d. repeat split; assumption.
Defined.

(** C10: when a report finds a status document for the user, the call
    succeeds, no document of the collection changes its key, its [user_id]
    or its creation time, and the other collections are untouched.  With
    unique keys the document found is the one rewritten: it keeps its key
    and [user_id] and takes [is_available], [lat], [lng] from the body and
    the clock reading as [updated_at], and every other document stays as it
    was. *)
Theorem update_driver_status_frame :
  forall (st : Database) (body : UpdateDriverStatus.t) (oid : ObjectId)
         (now : datetime) (e : Document DriverStatus),
    find_one (fun d => String.eqb (status_user_id d)
                                  (UpdateDriverStatus.user_id body))
             (driverstatus st) = Some e ->
    exists st',
      update_driver_status (Some st) body oid now
      = (inl (mkOk true), Some st') /\
      map _id (driverstatus st') = map _id (driverstatus st) /\
      map status_user_id (driverstatus st')
      = map status_user_id (driverstatus st) /\
      map (fun d => created_at (rest d)) (driverstatus st')
      = map (fun d => created_at (rest d)) (driverstatus st) /\
      user st' = user st /\
      ride st' = ride st /\
      (NoDup (map _id (driverstatus st)) ->
       find_one (fun d => String.eqb (status_user_id d)
                                     (UpdateDriverStatus.user_id body))
                (driverstatus st')
       = Some (mkDocument
                 (_id e)
                 (mkStored
                    (mkDriverStatus (user_id (fields (rest e)))
                                    (UpdateDriverStatus.is_available body)
                                    (UpdateDriverStatus.lat body)
                                    (UpdateDriverStatus.lng body))
                    (created_at (rest e)) now)) /\
       (forall d,
           In d (driverstatus st) -> _id d <> _id e ->
           In d (driverstatus st'))).
Proof.
  intros st body oid now e He.
  rewrite (update_driver_status_existing st body oid now e He).
  eexists. split; [reflexivity|]. simpl.
  split; [apply update_one_ids|].
  split; [now apply update_one_frame|].
  split; [now apply update_one_frame|].
  split; [reflexivity|]. split; [reflexivity|].
  intros Hids. rewrite (update_one_in_place _ (driverstatus st) e Hids).
  split.
  - exact (report_in_place_found body now e (driverstatus st) He).
  - intros d Hd Hne. apply in_map_iff. exists d. split; [|exact Hd].
    apply ObjectId_eqb_neq in Hne. now rewrite Hne.
Qed.

Lemma update_driver_status_frame_witness :
  exists st',
    update_driver_status (Some available_store) (report false)
                         sample_ride_oid 4%Z
    = (inl (mkOk true), Some st') /\
    map _id (driverstatus st') = [sample_status_oid] /\
    map status_user_id (driverstatus st') = [sample_driver_id].
Proof.
  destruct (update_driver_status_frame available_store (report false)
              sample_ride_oid 4%Z (sample_status_doc true 3%Z) eq_refl)
    as (st' & Hrun & Hids & Husers & _).
  exists st'. repeat split; assumption.
Defined.

(** ** Identifier strings *)

Lemma hex_byte_roundtrip (c : ascii) :
  let n := N_of_ascii c in
  is_space (hex_char (n / 16)) = false /\
  hex_digit (hex_char (n / 16)) = Some (n / 16)%N /\
  hex_digit (hex_char (n mod 16)) = Some (n mod 16)%N /\
  ascii_of_N (16 * (n / 16) + n mod 16) = c.
Proof.
  destruct c as [[] [] [] [] [] [] [] []]; vm_compute; repeat split.
Qed.

Lemma fromhex_pair (c1 c2 : ascii) (s : string) (top bot : N) :
  is_space c1 = false ->
  hex_digit c1 = Some top ->
  hex_digit c2 = Some bot ->
  fromhex (String c1 (String c2 s))
  = match fromhex s with
    | Some b => Some (String (ascii_of_N (16 * top + bot)) b)
    | None => None
    end.
Proof. intros Hs Ht Hb. cbn [fromhex]. now rewrite Hs, Ht, Hb. Qed.

Lemma fromhex_hexlify (b : bytes) : fromhex (hexlify b) = Some b.
Proof.
  induction b as [|c b IH]; [reflexivity|].
  destruct (hex_byte_roundtrip c) as (Hs & Ht & Hb & Hc).
  cbn [hexlify]. rewrite (fromhex_pair _ _ _ _ _ Hs Ht Hb), IH.
  now rewrite Hc.
Qed.

Lemma hexlify_length (b : bytes) :
  String.length (hexlify b) = 2 * String.length b.
Proof.
  induction b as [|c b IH]; [reflexivity|].
  cbn [hexlify String.length]. rewrite IH. lia.
Qed.

Lemma ObjectId_str_inj (a b : ObjectId) :
  ObjectId_str a = ObjectId_str b -> a = b.
Proof.
  destruct a as [x], b as [y]. unfold ObjectId_str. simpl. intros H.
  pose proof (fromhex_hexlify x) as Hx. rewrite H, fromhex_hexlify in Hx.
  congruence.
Qed.

Lemma ObjectId_from_str_of_str (oid : ObjectId) :
  generated oid -> ObjectId_from_str (ObjectId_str oid) = Some oid.
Proof.
  destruct oid as [b]. unfold generated, ObjectId_from_str, ObjectId_str.
  simpl. intros Hlen. rewrite hexlify_length, Hlen, fromhex_hexlify.
  reflexivity.
Qed.

(** X1: the ["id"] that [to_str_id] puts in a listing, passed back as a path
    parameter, parses to the key of the document it came from, provided the
    key has the 12 bytes of a generated identifier. *)
Theorem to_str_id_addresses_document :
  forall (A : Type) (d : Document A),
    generated (_id d) ->
    exists x,
      to_str_id (Some d) = Some x /\
      items x = rest d /\
      ObjectId_from_str (id x) = Some (_id d).
Proof.
  intros A d Hgen. eexists. split; [reflexivity|]. split; [reflexivity|].
  simpl. now apply ObjectId_from_str_of_str.
Qed.

Lemma to_str_id_addresses_document_witness :
  exists x,
    to_str_id (Some sample_driver_doc) = Some x /\
    items x = rest sample_driver_doc /\
    ObjectId_from_str (id x) = Some sample_driver_oid.
Proof.
  apply (to_str_id_addresses_document User sample_driver_doc). reflexivity.
Defined.

(** X2: [to_str_id] keeps documents apart: it maps no document to a value
    only for the absent document, and two documents that get the same ["id"]
    have the same key. *)
Theorem to_str_id_distinct :
  forall (A : Type) (d1 d2 : option (Document A)),
    (to_str_id d1 = None <-> d1 = None) /\
    (forall x1 x2 k1 k2,
        d1 = Some k1 -> d2 = Some k2 ->
        to_str_id d1 = Some x1 -> to_str_id d2 = Some x2 ->
        id x1 = id x2 -> _id k1 = _id k2).
Proof.
  intros A d1 d2. split.
  - destruct d1; simpl; split; congruence.
  - intros x1 x2 k1 k2 -> -> [= <-] [= <-]. simpl. apply ObjectId_str_inj.
Qed.

Lemma to_str_id_distinct_witness :
  id (to_str_id_doc sample_driver_doc) <> id (to_str_id_doc sample_rider_doc).
Proof.
  intros H.
  destruct (to_str_id_distinct User (Some sample_driver_doc)
              (Some sample_rider_doc)) as [_ Hinj].
  specialize (Hinj (to_str_id_doc sample_driver_doc)
                   (to_str_id_doc sample_rider_doc)
                   sample_driver_doc sample_rider_doc
                   eq_refl eq_refl eq_refl eq_refl H).
  vm_compute in Hinj. discriminate Hinj.
Defined.

(** ** Failures *)

(** X3: without a configured store every handler raises the 500 error and
    nothing else happens, also when the ride id is malformed or the status is
    outside the list: the store check comes before every other check. *)
Theorem store_unavailable_first :
  forall (u : User) (req : RideRequest.t) (rider_id_ : option string)
         (ride_id : string) (assign : AssignDriver.t)
         (upd : UpdateRideStatus.t) (report_ : UpdateDriverStatus.t)
         (oid : ObjectId) (now : datetime),
    create_user None u oid now = (inr StoreUnavailable, None) /\
    list_available_drivers None = inr StoreUnavailable /\
    request_ride None req oid now = (inr StoreUnavailable, None) /\
    list_rides None rider_id_ = inr StoreUnavailable /\
    assign_driver None ride_id assign now = (inr StoreUnavailable, None) /\
    update_ride_status None ride_id upd now = (inr StoreUnavailable, None) /\
    update_driver_status None report_ oid now
    = (inr StoreUnavailable, None).
Proof. intros. repeat split. Qed.



(** X5: the two ride updates succeed exactly when every check passes:
    [update_ride_status] when the store is configured, the ride id parses,
    the status is in the list and a ride has that key; [assign_driver] under
    the same conditions without the one on the status. *)
Theorem ride_update_succeeds_iff :
  forall (db : option Database) (ride_id : string) (now : datetime),
    (forall body,
        fst (update_ride_status db ride_id body now) = inl (mkOk true)
        <-> exists st oid d,
            db = Some st /\
            ObjectId_from_str ride_id = Some oid /\
            str_in (UpdateRideStatus.status body) statuses = true /\
            find_one (fun x => ObjectId_eqb (_id x) oid) (ride st) = Some d)
    /\
    (forall body,
        fst (assign_driver db ride_id body now) = inl (mkOk true)
        <-> exists st oid d,
            db = Some st /\
            ObjectId_from_str ride_id = Some oid /\
            find_one (fun x => ObjectId_eqb (_id x) oid) (ride st) = Some d).
Proof.
  intros db ride_id now. split; intros body.
  - split.
    + destruct db as [st|]; [|discriminate].
      destruct (ObjectId_from_str ride_id) as [o|] eqn:Hp.
      * destruct (str_in (UpdateRideStatus.status body) statuses) eqn:Hin.
        -- rewrite (update_ride_status_parsed st ride_id body now o Hp Hin).
           simpl. destruct (find_one _ (ride st)) as [d|] eqn:Hr;
             [|discriminate].
           intros _. now exists st, o, d.
        -- unfold update_ride_status. rewrite Hp, Hin. discriminate.
      * unfold update_ride_status. rewrite Hp. discriminate.
    + intros (st & o & d & -> & Hp & Hin & Hr).
      now rewrite (update_ride_status_parsed st ride_id body now o Hp Hin), Hr.
  - split.
    + destruct db as [st|]; [|discriminate].
      destruct (ObjectId_from_str ride_id) as [o|] eqn:Hp.
      * rewrite (assign_driver_parsed st ride_id body now o Hp).
        simpl. destruct (find_one _ (ride st)) as [d|] eqn:Hr;
          [|discriminate].
        intros _. now exists st, o, d.
      * unfold assign_driver. rewrite Hp. discriminate.
    + intros (st & o & d & -> & Hp & Hr).
      now rewrite (assign_driver_parsed st ride_id body now o Hp), Hr.
Qed.

Lemma ride_update_succeeds_iff_witness :
  fst (update_ride_status (Some requested_store) sample_ride_id
                          (UpdateRideStatus.mk "cancelled") 9%Z)
  = inl (mkOk true).
Proof.
  apply (proj1 (ride_update_succeeds_iff (Some requested_store)
                  sample_ride_id 9%Z)).
  exists requested_store, sample_ride_oid,
         (sample_ride_doc "requested" None 1%Z).
  repeat split.
Defined.

(** ** What every reachable store satisfies *)

Lemma update_one_Forall {A : Type} (P : Document A -> Prop)
    (q : Document A -> bool) (set : Stored A -> Stored A)
    (c : Collection A) :
  (forall d, q d = true -> P d -> P (mkDocument (_id d) (set (rest d)))) ->
  Forall P c -> Forall P (snd (update_one q set c)).
Proof.
  intros Hset. induction 1 as [|d c Hd Hc IH]; simpl; [constructor|].
  destruct (q d) eqn:E; simpl.
  - constructor; [now apply Hset|exact Hc].
  - destruct (update_one q set c); simpl in *. now constructor.
Qed.

Lemma serve_rides_Forall (P : Document Ride -> Prop) st r oid now st' :
  (forall req,
      P (mkDocument oid
           (mkStored (mkRide (RideRequest.rider_id req)
                             (RideRequest.pickup req)
                             (RideRequest.dropoff req)
                             "requested" None None) now now))) ->
  (forall body d, P d ->
                  P (mkDocument (_id d) (set_assignment body now (rest d)))) ->
  (forall body d,
      str_in (UpdateRideStatus.status body) statuses = true -> P d ->
      P (mkDocument (_id d) (set_ride_status body now (rest d)))) ->
  Forall P (ride st) ->
  serve (Some st) r oid now = Some st' ->
  Forall P (ride st').
Proof.
  intros Hnew Hassign Hset HP.
  destruct r as [u|req|ride_id body|ride_id body|body]; unfold serve.
  - intros [= <-]. exact HP.
  - intros [= <-]. simpl. unfold insert_one. apply Forall_app. split; auto.
  - destruct (ObjectId_from_str ride_id) as [o|] eqn:Hp.
    + rewrite (assign_driver_parsed st ride_id body now o Hp). simpl.
      intros [= <-]. simpl. apply update_one_Forall; auto.
    + unfold assign_driver. rewrite Hp. simpl. now intros [= <-].
  - destruct (ObjectId_from_str ride_id) as [o|] eqn:Hp.
    + destruct (str_in (UpdateRideStatus.status body) statuses) eqn:Hin.
      * rewrite (update_ride_status_parsed st ride_id body now o Hp Hin).
        simpl. intros [= <-]. simpl. apply update_one_Forall; auto.
      * unfold update_ride_status. rewrite Hp, Hin. simpl.
        now intros [= <-].
    + unfold update_ride_status. rewrite Hp. simpl. now intros [= <-].
  - unfold update_driver_status.
    destruct (find_one _ (driverstatus st)).
    + destruct (update_one _ _ (driverstatus st)). simpl. now intros [= <-].
    + simpl. now intros [= <-].
Qed.

(** X6: in every store that requests served one after the other produce,
    each ride has a status from the five-value list and no fare estimate: a
    ride is created as ["requested"], assignment writes ["accepted"], the
    status handler writes only what passed its membership test, and no
    handler writes ["fare_estimate"]. *)
Theorem reachable_rides_well_formed :
  forall st : Database,
    reachable st ->
    forall d,
      In d (ride st) ->
      str_in (status (fields (rest d))) statuses = true /\
      fare_estimate (fields (rest d)) = None.
Proof.
  intros st Hreach. apply Forall_forall.
  induction Hreach as [|st r oid now st' _ IH _ Hs]; [constructor|].
  apply (serve_rides_Forall _ st r oid now st'); auto.
  - intros body d [_ Hf]. now split.
  - intros body d Hin [_ Hf]. now split.
Qed.

Lemma reachable_rides_well_formed_witness :
  str_in "completed" statuses = true /\
  fare_estimate (fields (rest (sample_ride_doc "completed" None 2%Z))) = None.
Proof.
  apply (reachable_rides_well_formed completed_store
           completed_store_reachable
           (sample_ride_doc "completed" None 2%Z)).
  now left.
Defined.

(** X7: nothing is ever deleted or re-keyed.  A request leaves the user
    documents as they are and may append some; it leaves the key, rider,
    pickup, dropoff, fare estimate and creation time of every ride and the
    key, [user_id] and creation time of every status document as they are,
    and may append documents. *)
Theorem serve_only_appends :
  forall (st : Database) (r : Request) (oid : ObjectId) (now : datetime),
  exists st' us rs ds,
    serve (Some st) r oid now = Some st' /\
    user st' = user st ++ us /\
    map ride_core (ride st') = map ride_core (ride st) ++ map ride_core rs /\
    map status_core (driverstatus st')
    = map status_core (driverstatus st) ++ map status_core ds /\
    List.length us + List.length rs + List.length ds <= 1.
Proof.
  intros st r oid now.
  destruct r as [u|req|ride_id body|ride_id body|body]; unfold serve.
  - eexists _, [_], [], []. split; [reflexivity|]. simpl.
    rewrite ?app_nil_r. repeat split; auto.
  - eexists _, [], [_], []. split; [reflexivity|]. simpl.
    unfold insert_one. rewrite map_app, ?app_nil_r. repeat split; auto.
  - destruct (ObjectId_from_str ride_id) as [o|] eqn:Hp.
    + rewrite (assign_driver_parsed st ride_id body now o Hp).
      eexists _, [], [], []. split; [reflexivity|]. simpl.
      rewrite ?app_nil_r. repeat split; auto.
      now apply update_one_frame.
    + unfold assign_driver. rewrite Hp.
      exists st, [], [], []. simpl. rewrite ?app_nil_r. repeat split; auto.
  - destruct (ObjectId_from_str ride_id) as [o|] eqn:Hp.
    + destruct (str_in (UpdateRideStatus.status body) statuses) eqn:Hin.
      * rewrite (update_ride_status_parsed st ride_id body now o Hp Hin).
        eexists _, [], [], []. split; [reflexivity|]. simpl.
        rewrite !app_nil_r. repeat split; auto.
        now apply update_one_frame.
      * unfold update_ride_status. rewrite Hp, Hin.
        exists st, [], [], []. simpl. rewrite ?app_nil_r. repeat split; auto.
    + unfold update_ride_status. rewrite Hp.
      exists st, [], [], []. simpl. rewrite ?app_nil_r. repeat split; auto.
  - destruct (find_one (fun d => String.eqb (status_user_id d)
                                            (UpdateDriverStatus.user_id body))
                       (driverstatus st)) as [e|] eqn:He.
    + rewrite (update_driver_status_existing st body oid now e He).
      eexists _, [], [], []. split; [reflexivity|]. simpl.
      rewrite ?app_nil_r. repeat split; auto.
      now apply update_one_frame.
    + rewrite (update_driver_status_new st body oid now He).
      eexists _, [], [], [_]. split; [reflexivity|]. simpl.
      rewrite map_app, ?app_nil_r. repeat split; auto.
Qed.

(** ** More on listing rides *)

Lemma sorted_app_inv {A : Type} (l1 l2 : list (Document A)) :
  StronglySorted newer_or_same (l1 ++ l2) ->
  forall x y, In x l1 -> In y l2 -> newer_or_same x y.
Proof.
  induction l1 as [|a l1 IH]; simpl; [now intros _ x y []|].
  intros H x y [<-|Hx] Hy.
  - apply StronglySorted_inv in H as [_ Ha].
    rewrite Forall_forall in Ha. apply Ha, in_or_app. now right.
  - apply StronglySorted_inv in H as [Hs _]. now apply IH.
Qed.

Lemma sort_created_at_desc_snoc {A : Type} (l : list (Document A))
    (d : Document A) :
  (forall x, In x l -> (created_at (rest x) < created_at (rest d))%Z) ->
  sort_created_at_desc (l ++ [d]) = d :: sort_created_at_desc l.
Proof.
  unfold sort_created_at_desc. rewrite fold_right_app. simpl.
  induction l as [|x l IH]; simpl; [reflexivity|]. intros H.
  rewrite IH by (intros y Hy; apply H; now right). simpl.
  assert ((created_at (rest d) <=? created_at (rest x))%Z = false) as ->.
  { apply Z.leb_gt, H. now left. }
  reflexivity.
Qed.

(** X8: the cap of [list_rides] keeps the newest rides: the matching rides
    split into the ones returned, [min 20 n] of the [n] matching, and the
    [n - 20] dropped; no dropped ride was created after a returned one, and
    nothing is dropped when at most 20 rides match. *)
Theorem list_rides_keeps_newest :
  forall (st : Database) (rider_id_ : option string),
  exists kept dropped,
    list_rides (Some st) rider_id_ = inl (map to_str_id_doc kept) /\
    List.length kept
    = Nat.min 20 (List.length (find (filter_q rider_id_) (ride st))) /\
    List.length dropped
    = List.length (find (filter_q rider_id_) (ride st)) - 20 /\
    Permutation (kept ++ dropped) (find (filter_q rider_id_) (ride st)) /\
    (forall x y, In x kept -> In y dropped ->
                 (created_at (rest y) <= created_at (rest x))%Z) /\
    (List.length (find (filter_q rider_id_) (ride st)) <= 20 ->
     dropped = []).
Proof.
  intros st f.
  set (sorted := sort_created_at_desc (find (filter_q f) (ride st))).
  assert (List.length sorted
          = List.length (find (filter_q f) (ride st))) as Hlen
    by apply (Permutation_length (sort_created_at_desc_perm _)).
  exists (firstn 20 sorted), (skipn 20 sorted).
  split; [reflexivity|].
  split; [now rewrite length_firstn, Hlen|].
  split; [now rewrite length_skipn, Hlen|].
  split; [|split].
  - rewrite firstn_skipn. apply sort_created_at_desc_perm.
  - intros x y Hx Hy.
    apply (sorted_app_inv (firstn 20 sorted) (skipn 20 sorted)); auto.
    rewrite firstn_skipn. apply sort_created_at_desc_sorted.
  - intros Hfew. apply skipn_all2. now rewrite Hlen.
Qed.

Lemma list_rides_keeps_newest_witness :
  exists kept dropped,
    list_rides (Some completed_store) None = inl (map to_str_id_doc kept) /\
    Permutation (kept ++ dropped) (ride completed_store) /\
    dropped = [].
Proof.
  destruct (list_rides_keeps_newest completed_store None)
    as (kept & dropped & Hrun & _ & _ & Hperm & _ & Hall).
  exists kept, dropped. split; [exact Hrun|]. split; [exact Hperm|].
  apply Hall. simpl. lia.
Defined.

(** X9: a ride requested when the clock is past the creation time of every
    stored ride is listed first, unfiltered or under its own rider id.  The
    entries after it are [min 19 n] of the [n] rides that matched before,
    newest first, each created before the new ride; when the rides that
    matched before have pairwise distinct creation times, they are the
    previous listing cut to 19 entries. *)
Theorem new_ride_listed_first :
  forall (st : Database) (req : RideRequest.t) (oid : ObjectId)
         (now : datetime) (rider_id_ : option string),
    (forall d, In d (ride st) -> (created_at (rest d) < now)%Z) ->
    rider_id_ = None \/ rider_id_ = Some (RideRequest.rider_id req) ->
    exists st' others,
      request_ride (Some st) req oid now
      = (inl (IdResponse.mk (ObjectId_str oid)), Some st') /\
      list_rides (Some st') rider_id_
      = inl (mkStrDocument
               (ObjectId_str oid)
               (mkStored (mkRide (RideRequest.rider_id req)
                                 (RideRequest.pickup req)
                                 (RideRequest.dropoff req)
                                 "requested" None None) now now)
             :: others) /\
      List.length others
      = Nat.min 19 (List.length (find (filter_q rider_id_) (ride st))) /\
      StronglySorted newest_first others /\
      (forall x,
          In x others ->
          (created_at (items x) < now)%Z /\
          exists d, In d (ride st) /\ filter_q rider_id_ d = true /\
                    x = to_str_id_doc d) /\
      (NoDup (map (fun d => created_at (rest d))
                  (find (filter_q rider_id_) (ride st))) ->
       forall before,
         list_rides (Some st) rider_id_ = inl before ->
         others = firstn 19 before).
Proof.
  intros st req oid now f Hclock Hf.
  set (matching := find (filter_q f) (ride st)).
  exists (with_ride st
            (ride st
             ++ [mkDocument oid
                   (mkStored (mkRide (RideRequest.rider_id req)
                                     (RideRequest.pickup req)
                                     (RideRequest.dropoff req)
                                     "requested" None None) now now)])),
         (map to_str_id_doc (firstn 19 (sort_created_at_desc matching))).
  split; [reflexivity|]. split; [|split; [|split; [|split]]].
  - unfold list_rides, limit, find. simpl ride.
    rewrite filter_app. simpl filter.
    match goal with |- context [filter_q f ?d] =>
      assert (filter_q f d = true) as ->
    end.
    { destruct Hf as [->| ->]; simpl; [reflexivity|].
      destruct (str_bool _); [apply String.eqb_refl|reflexivity]. }
    rewrite sort_created_at_desc_snoc.
    + now rewrite (firstn_cons 19), map_cons.
    + intros x Hx. apply filter_In in Hx as [Hx _]. simpl. now apply Hclock.
  - rewrite length_map, length_firstn.
    now rewrite (Permutation_length (sort_created_at_desc_perm matching)).
  - apply to_str_id_doc_sorted.
    apply (limit_sorted 19), sort_created_at_desc_sorted.
  - intros x Hx. apply in_map_iff in Hx as [d [<- Hd]].
    apply (limit_incl 19) in Hd.
    apply (Permutation_in _ (sort_created_at_desc_perm matching)) in Hd.
    apply filter_In in Hd as [Hin Hq]. split.
    + simpl. now apply Hclock.
    + now exists d.
  - intros _ before Hb.
    apply (f_equal (fun r : Response (list (StrDocument Ride)) =>
                      match r with inl x => x | inr _ => [] end)) in Hb.
    unfold list_rides, limit in Hb. cbv beta iota in Hb. subst before.
    now rewrite firstn_map, firstn_firstn.
Qed.

Lemma new_ride_listed_first_witness :
  exists st' others,
    request_ride (Some completed_store) (RideRequest.mk "rider-2" "C" "D")
                 sample_status_oid 7%Z
    = (inl (IdResponse.mk (ObjectId_str sample_status_oid)), Some st') /\
    list_rides (Some st') None
    = inl (mkStrDocument
             (ObjectId_str sample_status_oid)
             (mkStored (mkRide "rider-2" "C" "D" "requested" None None)
                       7%Z 7%Z)
           :: others) /\
    List.length others = 1.
Proof.
  destruct (new_ride_listed_first completed_store
              (RideRequest.mk "rider-2" "C" "D") sample_status_oid 7%Z None)
    as (st' & others & Hrun & Hlist & Hlen & _).
  - simpl. intros d [<-|[]]. simpl. lia.
  - now left.
  - exists st', others. repeat split; assumption.
Defined.

(** ** From a request to the listings *)

Lemma find_one_fresh {A : Type} (oid : ObjectId) (c : Collection A) :
  ~ In oid (map _id c) ->
  find_one (fun d => ObjectId_eqb (_id d) oid) c = None.
Proof.
  unfold find_one. induction c as [|x c IH]; simpl; [reflexivity|].
  intros H. destruct (ObjectId_eqb (_id x) oid) eqn:E.
  - apply ObjectId_eqb_eq in E. exfalso. apply H. now left.
  - apply IH. intros Hin. apply H. now right.
Qed.

Lemma update_one_last {A : Type} (q : Document A -> bool)
    (set : Stored A -> Stored A) (c : Collection A) (d : Document A) :
  find_one q c = None -> q d = true ->
  snd (update_one q set (c ++ [d]))
  = c ++ [mkDocument (_id d) (set (rest d))].
Proof.
  unfold find_one. induction c as [|x c IH]; simpl.
  - now intros _ ->.
  - destruct (q x); [discriminate|]. intros Hc Hd.
    specialize (IH Hc Hd).
    destruct (update_one q set (c ++ [d])). simpl in *. now rewrite IH.
Qed.

Lemma filter_none {B : Type} (q : B -> bool) (l : list B) :
  (forall x, In x l -> q x = false) -> filter q l = [].
Proof.
  induction l as [|x l IH]; simpl; [reflexivity|]. intros H.
  rewrite (H x) by now left. apply IH. intros y Hy. apply H. now right.
Qed.

(** X10: the id [request_ride] returns works as the path parameter of the
    two updates.  With a generated identifier that is not yet a ride key,
    requesting a ride, assigning a driver under the returned id and setting
    the status to ["completed"] all succeed and leave one more ride: the
    requested one, completed, with the driver; all else is as before.  If
    the rider has no other ride, listing the rider's rides returns exactly
    this one. *)
Theorem ride_lifecycle :
  forall (st : Database) (req : RideRequest.t) (oid : ObjectId)
         (body : AssignDriver.t) (t1 t2 t3 : datetime),
    generated oid ->
    ~ In oid (map _id (ride st)) ->
    exists ride_id st1 st2 st3 final,
      request_ride (Some st) req oid t1
      = (inl (IdResponse.mk ride_id), Some st1) /\
      assign_driver (Some st1) ride_id body t2
      = (inl (mkOk true), Some st2) /\
      update_ride_status (Some st2) ride_id
                         (UpdateRideStatus.mk "completed") t3
      = (inl (mkOk true), Some st3) /\
      final = mkDocument oid
                (mkStored (mkRide (RideRequest.rider_id req)
                                  (RideRequest.pickup req)
                                  (RideRequest.dropoff req)
                                  "completed"
                                  (Some (AssignDriver.driver_id body))
                                  None)
                          t1 t3) /\
      ride st3 = ride st ++ [final] /\
      user st3 = user st /\
      driverstatus st3 = driverstatus st /\
      (RideRequest.rider_id req <> "" ->
       (forall d, In d (ride st) ->
                  rider_id (fields (rest d)) <> RideRequest.rider_id req) ->
       list_rides (Some st3) (Some (RideRequest.rider_id req))
       = inl [to_str_id_doc final]).
Proof.
  intros st req oid body t1 t2 t3 Hgen Hfresh.
  pose proof (ObjectId_from_str_of_str oid Hgen) as Hparse.
  pose proof (find_one_fresh oid (ride st) Hfresh) as Hnone.
  set (created := mkDocument oid
                    (mkStored (mkRide (RideRequest.rider_id req)
                                      (RideRequest.pickup req)
                                      (RideRequest.dropoff req)
                                      "requested" None None) t1 t1)).
  set (accepted := mkDocument oid (set_assignment body t2 (rest created))).
  set (final := mkDocument oid
                  (set_ride_status (UpdateRideStatus.mk "completed") t3
                                   (rest accepted))).
  exists (ObjectId_str oid),
         (with_ride st (ride st ++ [created])),
         (with_ride st (ride st ++ [accepted])),
         (with_ride st (ride st ++ [final])), final.
  split; [reflexivity|]. split; [|split].
  - rewrite (assign_driver_parsed _ _ body t2 oid Hparse). simpl ride.
    rewrite (find_one_app_unmatched _ (ride st) created Hnone)
      by apply ObjectId_eqb_refl.
    rewrite (update_one_last _ _ (ride st) created Hnone)
      by apply ObjectId_eqb_refl.
    reflexivity.
  - rewrite (update_ride_status_parsed _ _ (UpdateRideStatus.mk "completed")
               t3 oid Hparse eq_refl).
    simpl ride.
    rewrite (find_one_app_unmatched _ (ride st) accepted Hnone)
      by apply ObjectId_eqb_refl.
    rewrite (update_one_last _ _ (ride st) accepted Hnone)
      by apply ObjectId_eqb_refl.
    reflexivity.
  - split; [reflexivity|]. repeat split.
    intros Hrider Hothers. unfold list_rides, limit, find. simpl ride.
    rewrite filter_app, filter_none.
    + assert (filter_q (Some (RideRequest.rider_id req)) final = true)
        as Hq.
      { unfold filter_q. rewrite (str_bool_true _ Hrider).
        apply String.eqb_refl. }
      cbn [filter app]. now rewrite Hq.
    + intros d Hd. unfold filter_q. rewrite (str_bool_true _ Hrider).
      apply String.eqb_neq. now apply Hothers.
Qed.

Lemma ride_lifecycle_witness :
  exists ride_id st1 st2 st3,
    request_ride (Some registered_store) (RideRequest.mk "rider-1" "A" "B")
                 sample_ride_oid 5%Z
    = (inl (IdResponse.mk ride_id), Some st1) /\
    assign_driver (Some st1) ride_id (AssignDriver.mk "driver-1") 6%Z
    = (inl (mkOk true), Some st2) /\
    update_ride_status (Some st2) ride_id
                       (UpdateRideStatus.mk "completed") 7%Z
    = (inl (mkOk true), Some st3) /\
    List.length (ride st3) = 1.
Proof.
  destruct (ride_lifecycle registered_store
              (RideRequest.mk "rider-1" "A" "B") sample_ride_oid
              (AssignDriver.mk "driver-1") 5%Z 6%Z 7%Z)
    as (ride_id & st1 & st2 & st3 & final & H1 & H2 & H3 & _ & Hrides & _).
  - reflexivity.
  - simpl. intros [].
  - exists ride_id, st1, st2, st3. repeat split; try assumption.
    now rewrite Hrides.
Defined.

Lemma update_driver_status_others st body oid now r st' :
  update_driver_status (Some st) body oid now = (r, Some st') ->
  user st' = user st /\ ride st' = ride st.
Proof.
  destruct (find_one (fun d => String.eqb (status_user_id d)
                                          (UpdateDriverStatus.user_id body))
                     (driverstatus st)) as [e|] eqn:He.
  - rewrite (update_driver_status_existing st body oid now e He).
    intros [= _ <-]. now split.
  - rewrite (update_driver_status_new st body oid now He).
    intros [= _ <-]. now split.
Qed.

(** X11: the id [create_user] returns works as the [user_id] of a status
    report.  In a store produced by requests served one after the other,
    after an active driver is created and reports a status under the
    returned id, the driver listing has an entry for that id with the
    user's fields, and the status attached to it carries the reported
    availability and position and the time of the report. *)
Theorem driver_onboarding :
  forall st : Database,
    reachable st ->
    forall (u : User) (oid oid2 : ObjectId) (t1 t2 : datetime)
           (available : bool) (lat_ lng_ : option float),
      role u = driver ->
      is_active u = true ->
      fresh oid st ->
      ~ In oid2 (map _id (driverstatus st)) ->
      exists uid st1 st2 res s,
        create_user (Some st) u oid t1
        = (inl (IdResponse.mk uid), Some st1) /\
        update_driver_status
          (Some st1) (UpdateDriverStatus.mk uid available lat_ lng_) oid2 t2
        = (inl (mkOk true), Some st2) /\
        list_available_drivers (Some st2) = inl res /\
        In (mkDriverProfile (mkStrDocument uid (mkStored u t1 t1)) (Some s))
           res /\
        fields s = mkDriverStatus uid available lat_ lng_ /\
        updated_at s = t2.
Proof.
  intros st Hreach u oid oid2 t1 t2 available lat_ lng_ Hrole Hactive
         Hfresh Hfresh2.
  apply reachable_inv in Hreach as [_ _ Hids Husers].
  set (uid := ObjectId_str oid).
  set (body := UpdateDriverStatus.mk uid available lat_ lng_).
  set (udoc := mkDocument oid (mkStored u t1 t1)).
  set (st1 := with_user st (user st ++ [udoc])).
  destruct (update_driver_status_upsert st1 body oid2 t2 Hids Husers
              (fun _ => Hfresh2))
    as (st2 & d & Hrun & _ & _ & Hone & _ & Hold & Hnew).
  destruct (update_driver_status_others st1 body oid2 t2 _ st2 Hrun)
    as [Huser _].
  pose proof (find_first _ _ d [] Hone) as Hfound.
  assert (fields (rest d) = mkDriverStatus uid available lat_ lng_
          /\ updated_at (rest d) = t2) as [Hfields Htime].
  { destruct (find_one (fun x => String.eqb (status_user_id x)
                                            (UpdateDriverStatus.user_id body))
                       (driverstatus st1)) as [e|] eqn:He.
    - destruct (Hold e eq_refl) as [_ ->].
      apply find_one_some in He as [_ He]. apply String.eqb_eq in He.
      simpl in *. unfold status_user_id in He. now rewrite He.
    - destruct (Hnew eq_refl) as [_ ->]. now split. }
  exists uid, st1, st2. eexists. exists (rest d).
  split; [reflexivity|]. split; [exact Hrun|]. split; [reflexivity|].
  split; [|now split].
  apply in_map_iff. exists udoc. split.
  - unfold to_str_id_doc. simpl. f_equal.
    change (fun s : Document DriverStatus =>
              String.eqb (user_id (fields (rest s))) (ObjectId_str oid))
      with (fun s : Document DriverStatus =>
              String.eqb (status_user_id s)
                         (UpdateDriverStatus.user_id body)).
    now rewrite Hfound.
  - unfold find. apply filter_In. split.
    + rewrite Huser. simpl. apply in_or_app. right. now left.
    + simpl. now rewrite Hrole, Hactive.
Qed.

Lemma driver_onboarding_witness :
  exists uid st1 st2 res s,
    create_user (Some empty_store)
                (mkUser "Dana" driver (Some "555-0100") true)
                sample_driver_oid 1%Z
    = (inl (IdResponse.mk uid), Some st1) /\
    update_driver_status
      (Some st1) (UpdateDriverStatus.mk uid true None None)
      sample_status_oid 3%Z
    = (inl (mkOk true), Some st2) /\
    list_available_drivers (Some st2) = inl res /\
    In (mkDriverProfile
          (mkStrDocument uid
             (mkStored (mkUser "Dana" driver (Some "555-0100") true)
                       1%Z 1%Z))
          (Some s)) res /\
    is_available (fields s) = true.
Proof.
  destruct (driver_onboarding empty_store reachable_empty
              (mkUser "Dana" driver (Some "555-0100") true)
              sample_driver_oid sample_status_oid 1%Z 3%Z true None None)
    as (uid & st1 & st2 & res & s & H1 & H2 & H3 & H4 & H5 & _).
  - reflexivity.
  - reflexivity.
  - repeat split; intros [].
  - intros [].
  - exists uid, st1, st2, res, s. repeat split; try assumption.
    now rewrite H5.
Defined.

(** ** Identifiers in the listings *)

Lemma NoDup_map_filter {B C : Type} (g : B -> C) (q : B -> bool)
    (l : list B) :
  NoDup (map g l) -> NoDup (map g (filter q l)).
Proof.
  induction l as [|x l IH]; simpl; [auto|]. intros H.
  inversion H as [|? ? Hx Hl]; subst.
  destruct (q x); simpl; [|auto]. constructor; [|auto].
  intros Hin. apply Hx. apply in_map_iff in Hin as [y [Hy Hin]].
  apply in_map_iff. exists y. split; [exact Hy|].
  now apply filter_In in Hin as [Hin _].
Qed.

Lemma NoDup_map_firstn {B C : Type} (g : B -> C) (n : nat) (l : list B) :
  NoDup (map g l) -> NoDup (map g (firstn n l)).
Proof.
  intros H. rewrite <- (firstn_skipn n l), map_app in H.
  now apply NoDup_app_remove_r in H.
Qed.

Lemma NoDup_map_ObjectId_str {A : Type} (l : list (Document A)) :
  NoDup (map _id l) -> NoDup (map (fun d => ObjectId_str (_id d)) l).
Proof.
  induction l as [|x l IH]; simpl; [constructor|]. intros H.
  inversion H as [|? ? Hx Hl]; subst. constructor; [|auto].
  intros Hin. apply Hx. apply in_map_iff in Hin as [y [Hy Hin]].
  apply ObjectId_str_inj in Hy. apply in_map_iff. now exists y.
Qed.

(** X12: in a store produced by requests served one after the other, no
    two entries of a ride listing and no two entries of the driver listing
    carry the same ["id"]. *)
Theorem listings_have_distinct_ids :
  forall st : Database,
    reachable st ->
    (forall rider_id_,
        exists res,
          list_rides (Some st) rider_id_ = inl res /\ NoDup (map id res)) /\
    (exists res,
        list_available_drivers (Some st) = inl res /\
        NoDup (map (fun p => id (profile p)) res)).
Proof.
  intros st Hreach. apply reachable_inv in Hreach as [Hu Hr _ _]. split.
  - intros f. eexists. split; [reflexivity|].
    rewrite map_map. unfold limit, find.
    apply NoDup_map_firstn.
    apply (Permutation_NoDup
             (Permutation_map _
                (Permutation_sym (sort_created_at_desc_perm _)))).
    apply NoDup_map_filter. exact (NoDup_map_ObjectId_str _ Hr).
  - eexists. split; [reflexivity|].
    rewrite !map_map. unfold find.
    apply NoDup_map_filter. exact (NoDup_map_ObjectId_str _ Hu).
Qed.

Lemma listings_have_distinct_ids_witness :
  exists res,
    list_available_drivers (Some available_store) = inl res /\
    NoDup (map (fun p => id (profile p)) res).
Proof.
  exact (proj2 (listings_have_distinct_ids available_store
                  available_store_reachable)).
Defined.

(** X13: [create_user] succeeds on a configured store, touches only the
    user collection, and returns an id no stored user has when the generated
    identifier is new.  The driver listing afterwards is the listing before,
    followed by one entry for the new user when the user is an active
    driver, and unchanged otherwise. *)
Theorem create_user_extends_listing :
  forall (st : Database) (u : User) (oid : ObjectId) (now : datetime),
  exists uid st' before,
    create_user (Some st) u oid now = (inl (IdResponse.mk uid), Some st') /\
    ride st' = ride st /\
    driverstatus st' = driverstatus st /\
    (~ In oid (map _id (user st)) ->
     forall d, In d (user st) -> id (to_str_id_doc d) <> uid) /\
    list_available_drivers (Some st) = inl before /\
    list_available_drivers (Some st')
    = inl (before
           ++ match role u, is_active u with
              | driver, true =>
                  [mkDriverProfile
                     (mkStrDocument uid (mkStored u now now))
                     (option_map rest
                        (find_one
                           (fun s => String.eqb (status_user_id s) uid)
                           (driverstatus st)))]
              | _, _ => []
              end).
Proof.
  intros st u oid now. eexists _, _, _.
  split; [reflexivity|]. split; [reflexivity|]. split; [reflexivity|].
  split; [|split; [reflexivity|]].
  - intros Hfresh d Hd Heq. apply ObjectId_str_inj in Heq.
    apply Hfresh. rewrite <- Heq. now apply in_map.
  - unfold list_available_drivers, find. simpl user. unfold insert_one.
    rewrite filter_app, map_app. simpl driverstatus. do 2 f_equal.
    simpl. destruct (role u), (is_active u); reflexivity.
Qed.

Lemma create_user_extends_listing_witness :
  id (to_str_id_doc sample_driver_doc) <> ObjectId_str sample_rider_oid.
Proof.
  destruct (create_user_extends_listing driver_store
              (mkUser "Riley" rider None true) sample_rider_oid 2%Z)
    as (uid & st' & before & Hrun & _ & _ & Hnew & _).
  injection Hrun as <- _. apply Hnew.
  - simpl. intros [H|[]]. discriminate H.
  - now left.
Defined.

(** ** Successive writes to a ride *)

Lemma update_one_twice {A : Type} (oid : ObjectId)
    (set1 set2 : Stored A -> Stored A) (c : Collection A) :
  snd (update_one (fun d => ObjectId_eqb (_id d) oid) set2
         (snd (update_one (fun d => ObjectId_eqb (_id d) oid) set1 c)))
  = snd (update_one (fun d => ObjectId_eqb (_id d) oid)
                    (fun s => set2 (set1 s)) c).
Proof.
  induction c as [|x c IH]; simpl; [reflexivity|].
  destruct (ObjectId_eqb (_id x) oid) eqn:E; simpl.
  - now rewrite E.
  - destruct (update_one _ set1 c) as [n1 c1]; simpl in *. rewrite E.
    destruct (update_one _ set2 c1) as [n2 c2].
    destruct (update_one _ (fun s => set2 (set1 s)) c) as [n3 c3].
    simpl in *. now rewrite IH.
Qed.

Lemma update_one_ext {A : Type} (q : Document A -> bool)
    (set1 set2 : Stored A -> Stored A) (c : Collection A) :
  (forall s, set1 s = set2 s) ->
  update_one q set1 c = update_one q set2 c.
Proof.
  intros H. induction c as [|x c IH]; simpl; [reflexivity|].
  now rewrite H, IH.
Qed.

(** X14: the last write to a ride wins and the earlier one leaves no trace.
    Two status updates under the same ride id, the second with a status from
    the list, leave the store as the second alone would; so do two
    assignments under the same ride id. *)
Theorem last_ride_write_wins :
  forall (st : Database) (ride_id : string) (t1 t2 : datetime),
    (forall b1 b2,
        str_in (UpdateRideStatus.status b2) statuses = true ->
        snd (update_ride_status
               (snd (update_ride_status (Some st) ride_id b1 t1))
               ride_id b2 t2)
        = snd (update_ride_status (Some st) ride_id b2 t2)) /\
    (forall b1 b2,
        snd (assign_driver (snd (assign_driver (Some st) ride_id b1 t1))
                           ride_id b2 t2)
        = snd (assign_driver (Some st) ride_id b2 t2)).
Proof.
  intros st ride_id t1 t2. split.
  - intros b1 b2 H2.
    destruct (ObjectId_from_str ride_id) as [o|] eqn:Hp.
    + destruct (str_in (UpdateRideStatus.status b1) statuses) eqn:H1.
      * rewrite (update_ride_status_parsed st ride_id b1 t1 o Hp H1).
        cbn [snd].
        rewrite !(update_ride_status_parsed _ ride_id b2 t2 o Hp H2).
        cbn [snd]. simpl ride. rewrite update_one_twice.
        rewrite (update_one_ext
                   _ (fun s => set_ride_status b2 t2 (set_ride_status b1 t1 s))
                   (set_ride_status b2 t2) (ride st))
          by reflexivity.
        reflexivity.
      * assert (snd (update_ride_status (Some st) ride_id b1 t1) = Some st)
          as -> by (unfold update_ride_status; now rewrite Hp, H1).
        reflexivity.
    + assert (snd (update_ride_status (Some st) ride_id b1 t1) = Some st)
        as -> by (unfold update_ride_status; now rewrite Hp).
      reflexivity.
  - intros b1 b2.
    destruct (ObjectId_from_str ride_id) as [o|] eqn:Hp.
    + rewrite (assign_driver_parsed st ride_id b1 t1 o Hp). cbn [snd].
      rewrite !(assign_driver_parsed _ ride_id b2 t2 o Hp).
      cbn [snd]. simpl ride. rewrite update_one_twice.
      rewrite (update_one_ext
                 _ (fun s => set_assignment b2 t2 (set_assignment b1 t1 s))
                 (set_assignment b2 t2) (ride st))
        by reflexivity.
      reflexivity.
    + assert (snd (assign_driver (Some st) ride_id b1 t1) = Some st)
        as -> by (unfold assign_driver; now rewrite Hp).
      reflexivity.
Qed.

Lemma last_ride_write_wins_witness :
  snd (update_ride_status
         (snd (update_ride_status (Some requested_store) sample_ride_id
                                  (UpdateRideStatus.mk "picked_up") 5%Z))
         sample_ride_id (UpdateRideStatus.mk "cancelled") 6%Z)
  = snd (update_ride_status (Some requested_store) sample_ride_id
                            (UpdateRideStatus.mk "cancelled") 6%Z).
Proof.
  apply (proj1 (last_ride_write_wins requested_store sample_ride_id
                  5%Z 6%Z)).
  reflexivity.
Defined.

(** ** Diagnostics *)

(** X15: [test_database] always answers.  The collection names it reports
    are the first 10 the store lists, and none without a store or when the
    listing fails; ["connection_status"] is ["Connected"] exactly when a
    store is configured; ["database_url"] and ["database_name"] say only
    whether the two environment variables are set and non-empty, whatever
    the store is. *)
Theorem test_database_report :
  forall (db : option Database) (p : Probe),
    collections (test_database db p)
    = match db, collection_names p with
      | Some _, inl names => firstn 10 names
      | _, _ => []
      end /\
    List.length (collections (test_database db p)) <= 10 /\
    (connection_status (test_database db p) = "Connected"
     <-> db <> None) /\
    (forall db', database_url (test_database db p)
                 = database_url (test_database db' p)) /\
    (forall db', database_name (test_database db p)
                 = database_name (test_database db' p)) /\
    (database_url (test_database db p) = Some "✅ Set"
     <-> exists v, getenv p "DATABASE_URL" = Some v /\ v <> "") /\
    (database_name (test_database db p) = Some "✅ Set"
     <-> exists v, getenv p "DATABASE_NAME" = Some v /\ v <> "").
Proof.
  intros db p.
  assert (forall v : option string,
             env_bool v = true <-> exists s, v = Some s /\ s <> "") as Henv.
  { intros [[|c s]|]; simpl; split; try discriminate.
    - intros (s & [= <-] & H). congruence.
    - intros _. eexists. split; [reflexivity|discriminate].
    - intros _. reflexivity.
    - intros (s & H & _). discriminate. }
  assert (collections (test_database db p)
          = match db, collection_names p with
            | Some _, inl names => firstn 10 names
            | _, _ => []
            end) as Hnames.
  { unfold test_database. destruct db, (collection_names p); reflexivity. }
  split; [|split; [|split; [|split; [|split; [|split]]]]].
  - exact Hnames.
  - rewrite Hnames.
    destruct db, (collection_names p); try apply firstn_le_length;
      cbn [List.length]; lia.
  - unfold test_database.
    destruct db, (collection_names p); simpl; split; congruence.
  - intros db'. unfold test_database.
    destruct db, db', (collection_names p); reflexivity.
  - intros db'. unfold test_database.
    destruct db, db', (collection_names p); reflexivity.
  - rewrite <- Henv. unfold test_database.
    destruct db, (collection_names p), (env_bool (getenv p "DATABASE_URL"));
      simpl; split; congruence.
  - rewrite <- Henv. unfold test_database.
    destruct db, (collection_names p), (env_bool (getenv p "DATABASE_NAME"));
      simpl; split; congruence.
Qed.

(** ** A report and the listings *)

Lemma NoDup_key_eq {A : Type} (c : Collection A) (a b : Document A) :
  NoDup (map _id c) -> In a c -> In b c -> _id a = _id b -> a = b.
Proof.
  induction c as [|x c IH]; simpl; [now intros _ []|].
  intros H. inversion H as [|? ? Hx Hc]; subst.
  intros [->|Ha] [->|Hb] Heq; auto.
  - exfalso. apply Hx. rewrite Heq. now apply in_map.
  - exfalso. apply Hx. rewrite <- Heq. now apply in_map.
Qed.

Lemma find_one_app_other {A : Type} (q : Document A -> bool)
    (c : Collection A) (d : Document A) :
  q d = false -> find_one q (c ++ [d]) = find_one q c.
Proof.
  intros Hd. unfold find_one. induction c as [|x c IH]; simpl.
  - now rewrite Hd.
  - now destruct (q x).
Qed.

(** A report leaves the status lookup of every other user as it was. *)
Lemma update_driver_status_lookup_other st body oid now r st' uid :
  NoDup (map _id (driverstatus st)) ->
  update_driver_status (Some st) body oid now = (r, Some st') ->
  uid <> UpdateDriverStatus.user_id body ->
  find_one (fun s => String.eqb (status_user_id s) uid) (driverstatus st')
  = find_one (fun s => String.eqb (status_user_id s) uid) (driverstatus st).
Proof.
  intros Hids Hrun Hne.
  destruct (find_one (fun d => String.eqb (status_user_id d)
                                          (UpdateDriverStatus.user_id body))
                     (driverstatus st)) as [e|] eqn:He.
  - rewrite (update_driver_status_existing st body oid now e He) in Hrun.
    injection Hrun as _ <-. simpl driverstatus.
    rewrite (update_one_in_place _ (driverstatus st) e Hids).
    rewrite find_one_map_inv
      by (intros d; now destruct (ObjectId_eqb (_id d) (_id e))).
    destruct (find_one (fun s => String.eqb (status_user_id s) uid)
                       (driverstatus st)) as [x|] eqn:Hx; [|reflexivity].
    simpl. destruct (ObjectId_eqb (_id x) (_id e)) eqn:E; [|reflexivity].
    exfalso. apply ObjectId_eqb_eq in E.
    apply find_one_some in Hx as [Hxin Hxu].
    apply find_one_some in He as [Hein Heu].
    apply String.eqb_eq in Hxu, Heu.
    pose proof (NoDup_key_eq _ x e Hids Hxin Hein E). congruence.
  - rewrite (update_driver_status_new st body oid now He) in Hrun.
    injection Hrun as _ <-. simpl driverstatus.
    apply find_one_app_other. apply String.eqb_neq.
    unfold status_user_id. simpl. intros H. apply Hne. now symmetry.
Qed.

Lemma Forall2_map_same {B C : Type} (R : C -> C -> Prop) (f g : B -> C)
    (l : list B) :
  (forall x, In x l -> R (f x) (g x)) -> Forall2 R (map f l) (map g l).
Proof.
  induction l as [|x l IH]; simpl; constructor.
  - apply H. now left.
  - apply IH. intros y Hy. apply H. now right.
Qed.

(** X16: a status report changes nothing in the listings except the status
    attached to the reporting user.  With unique keys in the status
    collection, the driver listing after a report has the same users in the
    same order, every entry whose id is not the report's [user_id] is
    exactly as before, and every ride listing is as before. *)
Theorem report_changes_only_own_status :
  forall (st : Database) (body : UpdateDriverStatus.t) (oid : ObjectId)
         (now : datetime),
    NoDup (map _id (driverstatus st)) ->
    exists st' before after,
      update_driver_status (Some st) body oid now
      = (inl (mkOk true), Some st') /\
      list_available_drivers (Some st) = inl before /\
      list_available_drivers (Some st') = inl after /\
      Forall2 (fun p p' =>
                 profile p' = profile p /\
                 (id (profile p) <> UpdateDriverStatus.user_id body ->
                  p' = p))
              before after /\
      (forall rider_id_,
          list_rides (Some st') rider_id_ = list_rides (Some st) rider_id_).
Proof.
  intros st body oid now Hids.
  assert (exists st', update_driver_status (Some st) body oid now
                      = (inl (mkOk true), Some st')) as [st' Hrun].
  { destruct (find_one (fun d => String.eqb (status_user_id d)
                                            (UpdateDriverStatus.user_id body))
                       (driverstatus st)) as [e|] eqn:He.
    - rewrite (update_driver_status_existing st body oid now e He).
      now eexists.
    - rewrite (update_driver_status_new st body oid now He). now eexists. }
  destruct (update_driver_status_others st body oid now _ st' Hrun)
    as [Huser Hride].
  exists st'. eexists _, _. split; [exact Hrun|].
  split; [reflexivity|]. split; [reflexivity|]. split.
  - rewrite Huser. apply Forall2_map_same. intros x _. simpl.
    split; [reflexivity|]. intros Hne. f_equal. f_equal.
    exact (update_driver_status_lookup_other st body oid now _ st'
             (ObjectId_str (_id x)) Hids Hrun Hne).
  - intros f. unfold list_rides. now rewrite Hride.
Qed.

Lemma report_changes_only_own_status_witness :
  exists st',
    update_driver_status (Some available_store)
      (UpdateDriverStatus.mk "someone-else" true None None)
      sample_ride_oid 8%Z
    = (inl (mkOk true), Some st') /\
    list_available_drivers (Some st')
    = list_available_drivers (Some available_store).
Proof.
  destruct (report_changes_only_own_status available_store
              (UpdateDriverStatus.mk "someone-else" true None None)
              sample_ride_oid 8%Z)
    as (st' & before & after & Hrun & Hb & Ha & Hsame & _).
  - simpl. constructor; [intros []|constructor].
  - exists st'. split; [exact Hrun|]. rewrite Ha, Hb. f_equal.
    vm_compute in Hb. injection Hb as <-.
    inversion Hsame as [|p p' l l' [_ Hp] Hrest]; subst.
    inversion Hrest; subst. f_equal. apply Hp. discriminate.
Defined.
